(** * hpcflow configuration store: a shallow embedding of [hpcflow/config.py]

    The development follows the layout of the Python module: Python values
    and dictionaries first, then the exceptions of [hpcflow.errors], the
    [ConfigLoader] object with its file on disk, and the public operations
    [get], [set_value], [unset_value], [append_value], [prepend_value] and
    [pop_value].  Directory resolution ([_resolve_config_dir]), the run-time
    information of [hpcflow/runtime.py] and the argument handling of
    [hpcflow/api.py] follow in modules of their own; the facts come last. *)

From Stdlib Require Import List String Ascii ZArith Bool Lia.
Import ListNotations.
Local Open Scope string_scope.
Local Open Scope Z_scope.
Set Warnings "-register-all".

Module Config.

(** ** Python values

    Configuration values are what the YAML safe loader and [json.loads]
    produce: [None], booleans, integers, strings, lists and string-keyed
    mappings.  [VObject] stands for any other Python object that can be
    handed around (a bound method, a [Path], a schema object); it is
    identified by a name and carries no data.  Floating point values are
    left out. *)

Inductive value : Type :=
| VNone
| VBool (b : bool)
| VInt (z : Z)
| VStr (s : string)
| VList (l : list value)
| VDict (d : list (string * value))
| VObject (tag : string).

(** A Python [dict] with string keys: bindings in insertion order. *)
Definition pydict (A : Type) : Type := list (string * A).
Definition dict : Type := pydict value.

Section PyDict.
Context {A : Type}.

(** [d.get(k)]: the value bound to [k], or nothing. *)
Fixpoint dict_get (k : string) (d : pydict A) : option A :=
  match d with
  | [] => None
  | (k', v) :: d' => if String.eqb k k' then Some v else dict_get k d'
  end.

(** [k in d]. *)
Definition dict_mem (k : string) (d : pydict A) : bool :=
  match dict_get k d with Some _ => true | None => false end.

(** [d[k] = v]: an existing key keeps its position, a new key goes last. *)
Fixpoint dict_set (k : string) (v : A) (d : pydict A) : pydict A :=
  match d with
  | [] => [(k, v)]
  | (k', v') :: d' =>
      if String.eqb k k' then (k', v) :: d' else (k', v') :: dict_set k v d'
  end.

(** What [del d[k]] leaves of a dictionary; every binding of [k] goes, so
    that the key is absent afterwards whatever the list looked like. *)
Fixpoint dict_del (k : string) (d : pydict A) : pydict A :=
  match d with
  | [] => []
  | (k', v') :: d' =>
      if String.eqb k k' then dict_del k d' else (k', v') :: dict_del k d'
  end.

(** Python compares dictionaries as mappings: the order of keys is not
    observed.  Two dictionaries are the same mapping when every lookup
    agrees. *)
Definition same_mapping (d e : pydict A) : Prop :=
  forall k, dict_get k d = dict_get k e.
End PyDict.

(** Numbers behind [==]: [True == 1] and [False == 0] in Python. *)
Definition as_number (v : value) : option Z :=
  match v with
  | VBool true => Some 1
  | VBool false => Some 0
  | VInt z => Some z
  | _ => None
  end.

(** [a == b] on Python values. *)
Fixpoint py_eq (a b : value) {struct a} : bool :=
  match a, b with
  | VNone, VNone => true
  | VStr s, VStr t => String.eqb s t
  | VObject s, VObject t => String.eqb s t
  | VList xs, VList ys =>
      (fix all2 (xs : list value) (ys : list value) {struct xs} : bool :=
         match xs, ys with
         | [], [] => true
         | x :: xs', y :: ys' => py_eq x y && all2 xs' ys'
         | _, _ => false
         end) xs ys
  | VDict d, VDict e =>
      Nat.eqb (List.length d) (List.length e) &&
      (fix sub (d : list (string * value)) {struct d} : bool :=
         match d with
         | [] => true
         | (k, v) :: d' =>
             match dict_get k e with
             | Some w => py_eq v w && sub d'
             | None => false
             end
         end) d
  | VBool _, (VBool _ | VInt _) | VInt _, (VBool _ | VInt _) =>
      match as_number a, as_number b with
      | Some x, Some y => Z.eqb x y
      | _, _ => false
      end
  | _, _ => false
  end.

(** [type(v).__name__], used in error reports. *)
Definition type_name (v : value) : string :=
  match v with
  | VNone => "NoneType"
  | VBool _ => "bool"
  | VInt _ => "int"
  | VStr _ => "str"
  | VList _ => "list"
  | VDict _ => "dict"
  | VObject t => t
  end.

(** ** Exceptions

    The classes of [hpcflow.errors] that [config.py] raises, with the
    arguments they are built from, and the built-in exceptions that escape
    from it. *)

Inductive exception : Type :=
| ConfigUnknownItemError (name : string)
| ConfigChangeInvalidError (name : string)
| ConfigChangeInvalidJSONError (name : string) (json_str : string) (err : string)
| ConfigValidationError (failures : string)
| ConfigChangeValidationError (name : string) (validation_err : exception)
| ConfigChangeFileUpdateError (name : string) (err : exception)
| ConfigChangeTypeInvalidError (name : string) (typ : string)
| ConfigChangePopIndexError (name : string) (length : nat) (index : Z)
| ConfigFileValidationError (failures : string)
| ConfigFileInvocationIncompatibleError
| KeyError (key : value)
| TypeError
| AttributeError (attr : string)
| UnboundLocalError (var : string)
| IndexError
| OverflowError
| OSError (strerror : string)
| FileExistsError (path : string)
| FileNotFoundError (path : string)
| NotADirectoryError (path : string).

(** ** Schemas

    A [valida] schema is a list of rules and a validator.  The loader reads
    the rules only to collect the allowed keys; validation itself belongs to
    the library and is a function of the data. *)

Record Rule : Type := {
  rule_path : list string;
  callable_name : string;
  callable_args : list string
}.

Record ValidatedData : Type := {
  is_valid : bool;
  get_failures_string : string
}.

Record Schema : Type := {
  rules : list Rule;
  validate : dict -> ValidatedData
}.

(** ** The configuration document *)

Record Invocation : Type := {
  environment_setup : value;
  match_ : dict
}.

Record Profile : Type := {
  invocation : Invocation;
  config : dict
}.

Record Document : Type := {
  machine : string;
  defaults : dict;
  configs : pydict Profile
}.

(** ** The loader object, the directory it works in, and the world *)

(** [_meta_data]: a dictionary with exactly these five keys.  Paths are kept
    as strings. *)
Record MetaData : Type := {
  config_dir : string;
  config_file_path : string;
  config_file_contents : string;
  config_invocation_key : string;
  config_schemas : list Schema
}.

Record ConfigLoader : Type := {
  _configurable_keys : list string;
  _meta_data : MetaData;
  _configured_data : dict;
  _cfg_file_dat_rt : Document
}.

(** What the environment does to the next attempt to write the file: nothing,
    refuse to create the temporary file, or refuse the rename. *)
Inductive io_fault : Type :=
| NoFault
| FailWriteTmp (strerror : string)
| FailReplace (strerror : string).

(** The configuration directory: file name to the document the file holds. *)
Record Disk : Type := {
  files : pydict Document;
  fault : io_fault
}.

(** [warnings.warn] messages, by what they report. *)
Inductive warning : Type :=
| AlreadySet (name : string) (v : value)
| AlreadyNotSet (name : string).

Record World : Type := {
  loader : ConfigLoader;
  disk : Disk;
  warnings : list warning
}.

(** ** A state and exception monad over the world *)

Definition M (A : Type) : Type := World -> (exception + A) * World.

Definition ret {A} (a : A) : M A := fun w => (inr a, w).
Definition raise {A} (e : exception) : M A := fun w => (inl e, w).
Definition bind {A B} (m : M A) (k : A -> M B) : M B :=
  fun w => match m w with
           | (inl e, w') => (inl e, w')
           | (inr a, w') => k a w'
           end.
(** [try: m except Exception as err: h err]. *)
Definition try_except {A} (m : M A) (h : exception -> M A) : M A :=
  fun w => match m w with
           | (inl e, w') => h e w'
           | (inr a, w') => (inr a, w')
           end.
Definition lift {A} (r : exception + A) : M A :=
  match r with inl e => raise e | inr a => ret a end.
Definition self : M ConfigLoader := fun w => (inr (loader w), w).
Definition set_self (l : ConfigLoader) : M unit :=
  fun w => (inr tt, {| loader := l; disk := disk w; warnings := warnings w |}).
Definition the_disk : M Disk := fun w => (inr (disk w), w).
Definition set_disk (d : Disk) : M unit :=
  fun w => (inr tt, {| loader := loader w; disk := d; warnings := warnings w |}).
Definition warn (x : warning) : M unit :=
  fun w => (inr tt, {| loader := loader w; disk := disk w;
                       warnings := warnings w ++ [x] |}).

Declare Scope py_scope.
Delimit Scope py_scope with py.
Notation "x <- m ;; k" := (bind m (fun x => k))
  (at level 61, m at next level, right associativity) : py_scope.
Notation "m ;;; k" := (bind m (fun _ => k))
  (at level 61, right associativity) : py_scope.
Local Open Scope py_scope.

(** Field updates of the loader. *)
Definition with_configured_data (d : dict) (l : ConfigLoader) : ConfigLoader :=
  {| _configurable_keys := _configurable_keys l; _meta_data := _meta_data l;
     _configured_data := d; _cfg_file_dat_rt := _cfg_file_dat_rt l |}.
Definition with_cfg_file_dat_rt (r : Document) (l : ConfigLoader) : ConfigLoader :=
  {| _configurable_keys := _configurable_keys l; _meta_data := _meta_data l;
     _configured_data := _configured_data l; _cfg_file_dat_rt := r |}.

(** [d[k]]. *)
Definition py_getitem {A} (k : string) (d : pydict A) : exception + A :=
  match dict_get k d with
  | Some v => inr v
  | None => inl (KeyError (VStr k))
  end.

(** [del d[k]]. *)
Definition py_delitem {A} (k : string) (d : pydict A) : exception + pydict A :=
  if dict_mem k d then inr (dict_del k d) else inl (KeyError (VStr k)).

(** [rt["configs"][key]["config"]]. *)
Definition rt_config (key : string) (rt : Document) : exception + dict :=
  match py_getitem key (configs rt) with
  | inl e => inl e
  | inr p => inr (config p)
  end.

(** The document after its profile [key] got the config mapping [c]; the
    profile keeps its place. *)
Definition rt_with_config (key : string) (c : dict) (rt : Document) : Document :=
  match dict_get key (configs rt) with
  | Some p =>
      {| machine := machine rt; defaults := defaults rt;
         configs := dict_set key {| invocation := invocation p; config := c |}
                             (configs rt) |}
  | None => rt
  end.

(** [rt["configs"][key]["config"][name] = v]. *)
Definition rt_setitem (key name : string) (v : value) (rt : Document)
  : exception + Document :=
  match rt_config key rt with
  | inl e => inl e
  | inr c => inr (rt_with_config key (dict_set name v c) rt)
  end.

(** [del rt["configs"][key]["config"][name]]. *)
Definition rt_delitem (key name : string) (rt : Document) : exception + Document :=
  match rt_config key rt with
  | inl e => inl e
  | inr c =>
      match py_delitem name c with
      | inl e => inl e
      | inr c' => inr (rt_with_config key c' rt)
      end
  end.

(** ** Profile selection ([ConfigLoader.__init__], invocation matching) *)

(** [RUN_TIME_INFO], as far as [getattr] sees it: attribute name to value. *)
Definition RunTimeInfo : Type := dict.

Definition getattr_rti (rti : RunTimeInfo) (k : string) : exception + value :=
  match dict_get k rti with
  | Some v => inr v
  | None => inl (AttributeError k)
  end.

(** The inner loop over [match.items()]: the value [is_match] ends with. *)
Fixpoint match_loop (rti : RunTimeInfo) (m : dict) : exception + bool :=
  match m with
  | [] => inr true
  | (match_k, match_v) :: m' =>
      match getattr_rti rti match_k with
      | inl e => inl e
      | inr a => if negb (py_eq a match_v) then inr false else match_loop rti m'
      end
  end.

(** The outer loop over [configs.items()].  [is_match] is the local variable
    as the loop finds it: unbound ([None]) until a first profile was tried.
    The result is the selected entry, if any, and the final [is_match]. *)
Fixpoint profile_loop (rti : RunTimeInfo) (ps : pydict Profile)
  (is_match : option bool) : exception + (option (string * Profile) * option bool) :=
  match ps with
  | [] => inr (None, is_match)
  | (c_name_i, c_dat_i) :: ps' =>
      match match_loop rti (match_ (invocation c_dat_i)) with
      | inl e => inl e
      | inr true => inr (Some (c_name_i, c_dat_i), Some true)
      | inr false => profile_loop rti ps' (Some false)
      end
  end.

(** Lines 132-149: the loops, then [if not is_match: raise ...]. *)
Definition select_profile (rti : RunTimeInfo) (ps : pydict Profile)
  : exception + (option (string * Profile)) :=
  match profile_loop rti ps None with
  | inl e => inl e
  | inr (_, None) => inl (UnboundLocalError "is_match")
  | inr (_, Some false) => inl ConfigFileInvocationIncompatibleError
  | inr (sel, Some true) => inr sel
  end.

(** The allowed keys of the schemas, lines 110-117. *)
Definition rule_keys (r : Rule) : list string :=
  match rule_path r with
  | [] => if String.eqb (callable_name r) "allowed_keys"
          then callable_args r else []
  | _ :: _ => []
  end.

Definition schema_keys (cfg_schemas : list Schema) : list string :=
  flat_map (fun s => flat_map rule_keys (rules s)) cfg_schemas.

(** [_validate_configured_data]: the first schema that rejects the data
    raises. *)
Fixpoint validate_with (schemas : list Schema) (data : dict) : exception + unit :=
  match schemas with
  | [] => inr tt
  | cfg_schema :: rest =>
      let cfg_validated := validate cfg_schema data in
      if negb (is_valid cfg_validated)
      then inl (ConfigValidationError (get_failures_string cfg_validated))
      else validate_with rest data
  end.

Definition _validate_configured_data (l : ConfigLoader) (data : dict)
  : exception + unit :=
  validate_with (config_schemas (_meta_data l)) data.

(** The default document written when the directory has no file. *)
Definition DEFAULT_CONFIG (hostname : string) : Document :=
  {| machine := hostname;
     defaults := [];
     configs :=
       [("default",
         {| invocation := {| environment_setup := VNone; match_ := [] |};
            config := [("log_directory", VStr "logs");
                       ("environment_sources", VList []);
                       ("task_schema_sources", VList [])] |})] |}.

Definition joinpath (dir file : string) : string := dir ++ "/" ++ file.

Section Loader.

(** [json.loads]: a decoded value, or the message of the
    [JSONDecodeError].  Texts that decode to floating point numbers, and
    other ways for the decoder to fail, are outside the values here. *)
Variable json_loads : string -> string + value.

(** Names that ordinary attribute lookup finds on any object without the
    class saying so (those of [object]). *)
Variable object_hasattr : string -> bool.

(** The text of a YAML file that holds a document. *)
Variable yaml_text : Document -> string.

(** The built-in schemas [get_schema("config_schema.yaml")] and
    [get_schema("config_file_schema.yaml")]. *)
Variable config_schema_yaml : Schema.
Variable config_file_schema_yaml : Document -> ValidatedData.

Variable RUN_TIME_INFO : RunTimeInfo.
Variable hostname : string.

(** [_get_main_config_file]: [config.yaml], else [config.yml], else a
    generated [config.yml].  A file is kept as the document it holds, and
    the safe load and the round-trip load both return that document: what
    the two YAML loaders make of a text, a text they cannot parse, and a
    directory that refuses the generated file are outside this
    definition. *)
Definition _get_main_config_file (cfg_dir : string) (d : Disk)
  : (Document * Document * string * string) * Disk :=
  let name := if dict_mem "config.yaml" (files d)
              then "config.yaml" else "config.yml" in
  let d' := if dict_mem name (files d) then d
            else {| files := dict_set name (DEFAULT_CONFIG hostname) (files d);
                    fault := fault d |} in
  match dict_get name (files d') with
  | Some doc => ((doc, doc, joinpath cfg_dir name, yaml_text doc), d')
  | None => ((DEFAULT_CONFIG hostname, DEFAULT_CONFIG hostname,
              joinpath cfg_dir name, yaml_text (DEFAULT_CONFIG hostname)), d')
  end.

(** [ConfigLoader.__init__], from the resolved directory on.  The result
    is the new loader and the directory as loading left it. *)
Definition __init__ (config_schema : option Schema) (cfg_dir : string)
  (d : Disk) : exception + (ConfigLoader * Disk) :=
  let cfg_schemas := config_schema_yaml ::
                     match config_schema with Some s => [s] | None => [] end in
  let cfg_keys := schema_keys cfg_schemas in
  let '((cfg_file_dat, cfg_file_dat_rt, cfg_file_path, cfg_file_contents), d') :=
    _get_main_config_file cfg_dir d in
  let file_validated := config_file_schema_yaml cfg_file_dat in
  if negb (is_valid file_validated)
  then inl (ConfigFileValidationError (get_failures_string file_validated))
  else
    match select_profile RUN_TIME_INFO (configs cfg_file_dat) with
    | inl e => inl e
    | inr None => inl TypeError
    | inr (Some (cfg_inv_key, cfg_inv_data)) =>
        let l := {| _configurable_keys := cfg_keys;
                    _meta_data := {| config_dir := cfg_dir;
                                     config_file_path := cfg_file_path;
                                     config_file_contents := cfg_file_contents;
                                     config_invocation_key := cfg_inv_key;
                                     config_schemas := cfg_schemas |};
                    _configured_data := config cfg_inv_data;
                    _cfg_file_dat_rt := cfg_file_dat_rt |} in
        match _validate_configured_data l (_configured_data l) with
        | inl e => inl e
        | inr _ => inr (l, d')
        end
    end.

(** *** Attribute access *)

(** Names bound in the body of [class ConfigLoader]. *)
Definition class_namespace : list string :=
  ["CONFIG_DIR_ENV_VAR"; "CONFIG_DIR_DEFAULT"; "DEFAULT_CONFIG";
   "__init__"; "__dir__"; "__str__"; "__getattr__"; "_all_keys";
   "_cfg_inv_key"; "_validate_configured_data"; "_get_main_config_file";
   "_resolve_config_dir"; "_update_config_file"; "_modify_if_valid";
   "_set_value"; "_unset_value"; "_prepare_modify"; "to_string";
   "get_configurable"; "get"; "set_value"; "unset_value"; "append_value";
   "prepend_value"; "pop_value"].

(** Names [__init__] binds on the instance. *)
Definition instance_namespace : list string :=
  ["_configurable_keys"; "_cfg_file_dat_rt"; "_meta_data"; "_configured_data"].

Definition mem (x : string) (l : list string) : bool :=
  existsb (String.eqb x) l.

(** Ordinary attribute lookup succeeds: Python does not call
    [__getattr__] for these names. *)
Definition has_ordinary_attribute (name : string) : bool :=
  mem name instance_namespace || mem name class_namespace
  || object_hasattr name.

Definition meta_keys : list string :=
  ["config_dir"; "config_file_path"; "config_file_contents";
   "config_invocation_key"; "config_schemas"].

(** [self._meta_data[name]] for [name in self._meta_data]. *)
Definition meta_data_get (m : MetaData) (name : string) : option value :=
  if String.eqb name "config_dir" then Some (VStr (config_dir m))
  else if String.eqb name "config_file_path" then Some (VStr (config_file_path m))
  else if String.eqb name "config_file_contents"
       then Some (VStr (config_file_contents m))
  else if String.eqb name "config_invocation_key"
       then Some (VStr (config_invocation_key m))
  else if String.eqb name "config_schemas"
       then Some (VList (map (fun _ => VObject "Schema") (config_schemas m)))
  else None.

Definition __getattr__ (l : ConfigLoader) (name : string) : exception + value :=
  match meta_data_get (_meta_data l) name with
  | Some v => inr v
  | None =>
      if mem name (_configurable_keys l)
      then inr (match dict_get name (_configured_data l) with
                | Some v => v
                | None => VNone
                end)
      else inl (ConfigUnknownItemError name)
  end.

(** [getattr(self, name)]: ordinary lookup first, [__getattr__] only when
    it finds nothing.  An ordinary attribute is returned as an object known
    by its name only, whatever it holds (a method, a list, a dictionary). *)
Definition getattr (l : ConfigLoader) (name : string) : exception + value :=
  if has_ordinary_attribute name then inr (VObject name)
  else __getattr__ l name.

Definition get (name : string) : M value :=
  l <- self ;; lift (getattr l name).

Definition get_configurable : M (list string) :=
  l <- self ;; ret (_configurable_keys l).

Definition _cfg_inv_key (l : ConfigLoader) : string :=
  config_invocation_key (_meta_data l).

(** *** Writing the file *)

(** [cfg_file_path.with_suffix(".tmp")] and the file name itself, within
    the configuration directory. *)
Definition file_name (l : ConfigLoader) : string :=
  if String.eqb (config_file_path (_meta_data l))
                (joinpath (config_dir (_meta_data l)) "config.yaml")
  then "config.yaml" else "config.yml".
Definition tmp_name : string := "config.tmp".

(** [_update_config_file]: dump the round-trip data to the temporary file,
    then rename it over the original.  Either step can be refused by the
    environment; a refused step raises and the steps before it stay done. *)
Definition _update_config_file : M unit :=
  l <- self ;;
  d <- the_disk ;;
  match fault d with
  | FailWriteTmp msg => raise (OSError msg)
  | FailReplace msg =>
      set_disk {| files := dict_set tmp_name (_cfg_file_dat_rt l) (files d);
                  fault := fault d |} ;;;
      raise (OSError msg)
  | NoFault =>
      set_disk {| files := dict_set (file_name l) (_cfg_file_dat_rt l)
                             (dict_del tmp_name
                                (dict_set tmp_name (_cfg_file_dat_rt l) (files d)));
                  fault := fault d |}
  end.

(** *** Modification *)

Definition _modify_if_valid (name : string) (new_value : value)
  (is_unset : bool) : M value :=
  l <- self ;;
  (* validate change: *)
  let dat_copy := _configured_data l in
  old_value <- lift (py_getitem name dat_copy) ;;
  dat_copy <- (if is_unset then lift (py_delitem name dat_copy)
               else ret (dict_set name new_value dat_copy)) ;;
  match _validate_configured_data l dat_copy with
  | inl err => raise (ConfigChangeValidationError name err)
  | inr _ =>
      (* update object attributes: *)
      (if is_unset then
         rt <- lift (rt_delitem (_cfg_inv_key l) name (_cfg_file_dat_rt l)) ;;
         set_self (with_cfg_file_dat_rt rt l) ;;;
         l <- self ;;
         c <- lift (py_delitem name (_configured_data l)) ;;
         set_self (with_configured_data c l)
       else
         rt <- lift (rt_setitem (_cfg_inv_key l) name new_value
                                (_cfg_file_dat_rt l)) ;;
         set_self (with_cfg_file_dat_rt rt l) ;;;
         l <- self ;;
         set_self (with_configured_data
                     (dict_set name new_value (_configured_data l)) l)) ;;;
      try_except _update_config_file
        (fun err =>
           (* reinstate old value: *)
           l <- self ;;
           rt <- lift (rt_setitem (_cfg_inv_key l) name old_value
                                  (_cfg_file_dat_rt l)) ;;
           set_self (with_cfg_file_dat_rt rt l) ;;;
           l <- self ;;
           set_self (with_configured_data
                       (dict_set name old_value (_configured_data l)) l) ;;;
           raise (ConfigChangeFileUpdateError name err)) ;;;
      if is_unset then ret (VBool true) else ret new_value
  end.

Definition _set_value (name : string) (old_value new_value : value) : M value :=
  if py_eq old_value new_value
  then warn (AlreadySet name new_value) ;;; ret VNone
  else _modify_if_valid name new_value false.

Definition _unset_value (name : string) : M value :=
  l <- self ;;
  if negb (dict_mem name (_configured_data l))
  then warn (AlreadyNotSet name) ;;; ret VNone
  else _modify_if_valid name VNone true.

Definition _prepare_modify (name : string) (new_value : value) (is_json : bool)
  : M (value * value) :=
  l <- self ;;
  if negb (mem name (_configurable_keys l))
  then raise (ConfigChangeInvalidError name)
  else
    new_value <- (if is_json then
                    match new_value with
                    | VStr s =>
                        match json_loads s with
                        | inl err => raise (ConfigChangeInvalidJSONError name s err)
                        | inr v => ret v
                        end
                    | _ => raise TypeError
                    end
                  else ret new_value) ;;
    old_value <- get name ;;
    ret (old_value, new_value).

Definition set_value (name : string) (v : value) (is_json : bool) : M value :=
  p <- _prepare_modify name v is_json ;;
  let '(old_value, new_value) := p in
  _set_value name old_value new_value.

Definition unset_value (name : string) : M value :=
  _prepare_modify name VNone false ;;;
  _unset_value name.

Definition append_value (name : string) (v : value) (is_json : bool) : M value :=
  p <- _prepare_modify name v is_json ;;
  let '(old_value, new_value) := p in
  match old_value with
  | VList old => _set_value name old_value (VList (old ++ [new_value]))
  | _ => raise (ConfigChangeTypeInvalidError name (type_name old_value))
  end.

Definition prepend_value (name : string) (v : value) (is_json : bool) : M value :=
  p <- _prepare_modify name v is_json ;;
  let '(old_value, new_value) := p in
  match old_value with
  | VList old => _set_value name old_value (VList ([new_value] ++ old))
  | _ => raise (ConfigChangeTypeInvalidError name (type_name old_value))
  end.

(** The list without its element at position [n]. *)
Fixpoint remove_nth (n : nat) (l : list value) : list value :=
  match n, l with
  | _, [] => []
  | O, _ :: l' => l'
  | S n', x :: l' => x :: remove_nth n' l'
  end.

(** The largest index CPython takes ([sys.maxsize] of a 64-bit build). *)
Definition PY_SSIZE_T_MAX : Z := 2 ^ 63 - 1.

Definition fits_ssize_t (index : Z) : bool :=
  (- PY_SSIZE_T_MAX - 1 <=? index) && (index <=? PY_SSIZE_T_MAX).

(** [l.pop(index)] on a list: the list without the element; [IndexError]
    for an index out of range; [OverflowError] for an index that does not
    fit the machine integer [list.pop] converts it to.  A list never has more
    than [PY_SSIZE_T_MAX] elements, so an index in range always fits. *)
Definition list_pop (index : Z) (l : list value) : exception + list value :=
  let len := Z.of_nat (List.length l) in
  let i := if index <? 0 then index + len else index in
  if (0 <=? i) && (i <? len) then inr (remove_nth (Z.to_nat i) l)
  else if fits_ssize_t index then inl IndexError else inl OverflowError.

Definition pop_value (name : string) (index : Z) : M value :=
  p <- _prepare_modify name VNone false ;;
  let '(old_value, _) := p in
  match old_value with
  | VList old =>
      match list_pop index old with
      | inr new => _set_value name old_value (VList new)
      | inl IndexError =>
          raise (ConfigChangePopIndexError name (List.length old) index)
      | inl e => raise e
      end
  | VDict d =>
      (* [dict.pop(index)]: the keys are strings, the index is an int *)
      raise (KeyError (VInt index))
  | _ => raise (ConfigChangeTypeInvalidError name (type_name old_value))
  end.

(** The five mutators as data, and a call of any of them. *)
Inductive mutation : Type :=
| SetValue (name : string) (v : value) (is_json : bool)
| UnsetValue (name : string)
| AppendValue (name : string) (v : value) (is_json : bool)
| PrependValue (name : string) (v : value) (is_json : bool)
| PopValue (name : string) (index : Z).

Definition mutate (m : mutation) : M value :=
  match m with
  | SetValue name v is_json => set_value name v is_json
  | UnsetValue name => unset_value name
  | AppendValue name v is_json => append_value name v is_json
  | PrependValue name v is_json => prepend_value name v is_json
  | PopValue name index => pop_value name index
  end.

Definition mutation_name (m : mutation) : string :=
  match m with
  | SetValue name _ _ | UnsetValue name | AppendValue name _ _
  | PrependValue name _ _ | PopValue name _ => name
  end.

End Loader.

End Config.
Import Config.
Local Open Scope py_scope.

(** ** Directory resolution ([ConfigLoader._resolve_config_dir]) *)

Module ResolveDir.

(** What a path names in the file system. *)
Inductive node : Type := Dir | File.

Definition FileSystem : Type := pydict node.

(** The [config_dir] argument: [None], a [str] or a [Path]. *)
Inductive dir_arg : Type :=
| ArgNone
| ArgStr (s : string)
| ArgPath (p : string).

(** Truth value of the argument: [None] and the empty string are false, a
    [Path] is always true. *)
Definition truthy (a : dir_arg) : bool :=
  match a with
  | ArgNone => false
  | ArgStr s => negb (String.eqb s "")
  | ArgPath _ => true
  end.

Definition CONFIG_DIR_ENV_VAR : string := "HPCFLOW_CONFIG_DIR".
Definition CONFIG_DIR_DEFAULT : string := "~/.hpcflow".

(** [os.getenv(key, default)]. *)
Definition getenv (env : pydict string) (key default : string) : string :=
  match dict_get key env with
  | Some v => v
  | None => default
  end.

Definition is_dir (p : string) (fs : FileSystem) : bool :=
  match dict_get p fs with
  | Some Dir => true
  | _ => false
  end.

Section Paths.

(** [Path.parent], [Path.expanduser] and [Path.absolute] on paths kept as
    strings. *)
Variable parent : string -> string.
Variable expanduser : string -> string.
Variable absolute : string -> string.

(** [Path.mkdir()], with its defaults [parents=False, exist_ok=False]. *)
Definition mkdir (p : string) (fs : FileSystem) : exception + FileSystem :=
  if dict_mem p fs then inl (FileExistsError p)
  else match dict_get (parent p) fs with
       | Some Dir => inr (dict_set p Dir fs)
       | Some File => inl (NotADirectoryError p)
       | None => inl (FileNotFoundError p)
       end.

(** The directory the first branch of [_resolve_config_dir] picks. *)
Definition chosen_dir (config_dir : dir_arg) (env : pydict string) : string :=
  if negb (truthy config_dir)
  then expanduser (getenv env CONFIG_DIR_ENV_VAR CONFIG_DIR_DEFAULT)
  else match config_dir with
       | ArgStr s => s
       | ArgPath p => p
       | ArgNone => ""
       end.

Definition _resolve_config_dir (config_dir : dir_arg) (env : pydict string)
  (fs : FileSystem) : exception + (string * FileSystem) :=
  let config_dir := chosen_dir config_dir env in
  if negb (is_dir config_dir fs)
  then match mkdir config_dir fs with
       | inl e => inl e
       | inr fs' => inr (absolute config_dir, fs')
       end
  else inr (absolute config_dir, fs).

End Paths.

End ResolveDir.

(** ** Run-time information ([hpcflow/runtime.py]) *)

Module RunTime.

(** What [RunTimeInfo.__init__] reads from the interpreter and the
    environment. *)
Record Sys : Type := {
  frozen : bool;                    (* getattr(sys, "frozen", False) *)
  _MEIPASS : string;
  file_dir : string;                (* os.path.dirname(os.path.abspath(__file__)) *)
  cwd : string;                     (* os.getcwd() *)
  executable : string;              (* sys.executable *)
  argv0 : string;                   (* sys.argv[0] *)
  prefix : string;                  (* sys.prefix *)
  base_prefix : string;             (* sys.base_prefix *)
  real_prefix : option string;      (* sys.real_prefix, when it exists *)
  environ : pydict string           (* os.environ *)
}.

(** [name.split(".")[0]]: the text before the first dot. *)
Fixpoint split_head (name : string) : string :=
  match name with
  | EmptyString => EmptyString
  | String c rest =>
      if Ascii.eqb c "."%char then EmptyString else String c (split_head rest)
  end.

(** An optional string as a Python value. *)
Definition opt_str (o : option string) : value :=
  match o with Some s => VStr s | None => VNone end.

(** A [Path] object: an object identified by its path. *)
Definition Path (p : string) : value := VObject p.

Inductive error : Type := ValueError (msg : string).

(** [_set_venv_path], on the attributes it reads. *)
Definition _set_venv_path (is_venv is_conda_venv : bool)
  (sys_prefix conda_prefix : value) : error + value :=
  let out := if is_venv then [sys_prefix]
             else if is_conda_venv then [conda_prefix]
             else [] in
  match out with
  | [] => inl (ValueError "Not running in a virtual environment!")
  | [x] => inr x
  | _ => inr (VList out)
  end.

Section Names.

(** [Path.name]: the last component of a path. *)
Variable path_name : string -> string.

(** The instance attributes [__init__] binds, in the order it binds them.
    A [Path] keeps the text it was made from. *)
Definition attributes (sys : Sys) (name version : string) : dict :=
  let is_frozen := frozen sys in
  let bundle_dir := if is_frozen then _MEIPASS sys else file_dir sys in
  let is_venv :=
    match real_prefix sys with Some _ => true | None => false end
    || negb (String.eqb (base_prefix sys) (prefix sys)) in
  let is_conda_venv := dict_mem "CONDA_PREFIX" (environ sys) in
  let sys_prefix := VStr (prefix sys) in
  let conda_prefix := opt_str (dict_get "CONDA_PREFIX" (environ sys)) in
  ([("name", VStr (split_head name));
    ("version", VStr version);
    ("is_frozen", VBool is_frozen);
    ("working_dir", VStr (cwd sys))]
   ++ (if is_frozen
       then [("bundle_dir", Path bundle_dir);
             ("executable_path", Path (argv0 sys));
             ("resolved_executable_path", Path (executable sys));
             ("executable_name", VStr (path_name (argv0 sys)));
             ("resolved_executable_name", VStr (path_name (executable sys)))]
       else [("script_path", Path (argv0 sys));
             ("python_executable_path", Path (executable sys))])
   ++ [("is_venv", VBool is_venv);
       ("is_conda_venv", VBool is_conda_venv);
       ("sys_prefix", sys_prefix);
       ("sys_base_prefix", VStr (base_prefix sys));
       ("sys_real_prefix", opt_str (real_prefix sys));
       ("conda_prefix", conda_prefix);
       ("venv_path",
        match _set_venv_path is_venv is_conda_venv sys_prefix conda_prefix with
        | inl _ => VNone
        | inr v => v
        end)])%list.

(** The warning of [__init__], if it gives one. *)
Definition nested_warning (self : dict) : bool :=
  match dict_get "is_venv" self, dict_get "is_conda_venv" self with
  | Some (VBool true), Some (VBool true) => true
  | _, _ => false
  end.

(** [self.k] for the members; a missing attribute reads as [None] here,
    which is never the case for the attributes [_get_members] asks for. *)
Definition attr (self : dict) (k : string) : string * value :=
  (k, match dict_get k self with Some v => v | None => VNone end).

(** [_get_members]. *)
Definition _get_members (self : dict) : dict :=
  let out := [attr self "is_frozen"] in
  let out :=
    match dict_get "is_frozen" self with
    | Some (VBool true) =>
        fold_left (fun d kv => dict_set (fst kv) (snd kv) d)
          [attr self "executable_name"; attr self "resolved_executable_name";
           attr self "executable_path"; attr self "resolved_executable_path"]
          out
    | _ =>
        fold_left (fun d kv => dict_set (fst kv) (snd kv) d)
          [attr self "script_path"; attr self "python_executable_path";
           attr self "is_venv"; attr self "is_conda_venv";
           attr self "sys_prefix"; attr self "sys_base_prefix";
           attr self "sys_real_prefix"; attr self "conda_prefix";
           attr self "venv_path"]
          out
    end in
  dict_set "working_dir" (snd (attr self "working_dir")) out.

(** The tags [__init__] hands to [sentry_sdk.set_tag]. *)
Definition sentry_tags (self : dict) : list (string * value) :=
  map (fun kv => (("rti." ++ fst kv)%string, snd kv))
    (filter (fun kv => existsb (String.eqb (fst kv))
                         ["is_frozen"; "is_venv"; "is_conda_venv";
                          "executable_name"])
       (_get_members self)).

End Names.

End RunTime.

(** ** Argument handling of the API ([hpcflow/api.py]) *)

Module Api.

Inductive error : Type := ValueError (msg : string).

(** Where [make_workflow] takes the workflow from. *)
Inductive source : Type :=
| FromJsonStr (json_str : string)
| FromJsonFile (json_file : string)
| FromProfiles (profile_list : option (list string)).

Definition is_some {A} (o : option A) : bool :=
  match o with Some _ => true | None => false end.

(** Truth value of an optional string. *)
Definition nonempty (o : option string) : bool :=
  match o with
  | Some s => negb (String.eqb s "")
  | None => false
  end.

(** [make_workflow], lines 58-75: the check of the three arguments and the
    choice between them, and no more than that.  File names are strings
    here; the project, the decoding of the JSON text or file (which can
    raise a [ValueError] of its own) and the database that the function
    goes on with are not part of this. *)
Definition make_workflow_source (profile_list : option (list string))
  (json_file json_str : option string) : error + source :=
  let not_nones :=
    list_sum (map (fun b : bool => if b then 1%nat else 0%nat)
                [is_some profile_list; is_some json_file; is_some json_str]) in
  if Nat.ltb 1 not_nones
  then inl (ValueError
              "Specify only one of `profile_list`, `json_file` or `json_str`.")
  else if nonempty json_str
       then inr (FromJsonStr (match json_str with Some s => s | None => "" end))
       else if nonempty json_file
            then inr (FromJsonFile
                        (match json_file with Some s => s | None => "" end))
            else inr (FromProfiles profile_list).

(** [get_stats] and [kill], lines 261-274 and 359-372: the workflows to work
    on, given the ids the database holds.  An id is an integer or [None];
    [0] is false like [None].  The messages stand without the directory
    the code formats into them. *)
Definition select_workflow_ids (all_workflow_ids : list Z)
  (workflow_id : option Z) : error + list Z :=
  match all_workflow_ids with
  | [] => inl (ValueError "No workflows exist in directory")
  | _ :: _ =>
      match workflow_id with
      | Some i =>
          if negb (Z.eqb i 0)
          then if negb (existsb (Z.eqb i) all_workflow_ids)
               then inl (ValueError "No workflow with ID was found in directory")
               else inr [i]
          else inr all_workflow_ids
      | None => inr all_workflow_ids
      end
  end.

(** Python's truth value of a value. *)
Definition truth (v : value) : bool :=
  match v with
  | VNone => false
  | VBool b => b
  | VInt z => negb (Z.eqb z 0)
  | VStr s => negb (String.eqb s "")
  | VList l => match l with [] => false | _ => true end
  | VDict d => match d with [] => false | _ => true end
  | VObject _ => true
  end.

(** [a or b]. *)
Definition py_or (a b : value) : value := if truth a then a else b.

(** [get_formatted_stats], lines 306-333: the column headers and the row of
    one task. *)
Definition task_headers (show_task_end : bool) : list string :=
  let headers := [""; "TID"; "SID"; "Dir."; "Start"; "Duration"; "Archive";
                  "memory"; "hostname"] in
  if show_task_end
  then (firstn 5 headers ++ ["End"] ++ skipn 5 headers)%list
  else headers.

Definition task_row (task : dict) (show_task_end : bool)
  : exception + list value :=
  match py_getitem "order_id" task, py_getitem "task_id" task,
        py_getitem "scheduler_id" task, py_getitem "working_directory" task,
        py_getitem "start_time" task with
  | inr order_id, inr task_id, inr scheduler_id, inr working_directory,
    inr start_time =>
      match py_getitem "duration" task, py_getitem "archive_status" task,
            py_getitem "memory" task, py_getitem "hostname" task with
      | inr duration, inr archive_status, inr memory, inr hostname =>
          let row := [order_id; task_id; scheduler_id; working_directory;
                      py_or start_time (VStr "pending");
                      py_or duration (VStr "-");
                      py_or archive_status (VStr "-");
                      py_or memory (VStr "-");
                      py_or hostname (VStr "-")] in
          if show_task_end
          then match py_getitem "end_time" task with
               | inr end_time =>
                   inr (firstn 5 row ++ [py_or end_time (VStr "-")]
                        ++ skipn 5 row)%list
               | inl e => inl e
               end
          else inr row
      | inl e, _, _, _ | _, inl e, _, _ | _, _, inl e, _ | _, _, _, inl e =>
          inl e
      end
  | inl e, _, _, _, _ | _, inl e, _, _, _ | _, _, inl e, _, _
  | _, _, _, inl e, _ | _, _, _, _, inl e => inl e
  end.

End Api.

(** ** A concrete store

    The store a first start in an empty directory produces: the built-in
    schema allows the three keys of the default document and wants the two
    source lists to be lists. *)

Module Example.

Definition keys : list string :=
  ["log_directory"; "environment_sources"; "task_schema_sources"].

Definition is_list (v : value) : bool :=
  match v with VList _ => true | _ => false end.

Definition valid_config (d : dict) : bool :=
  forallb (fun kv => existsb (String.eqb (fst kv)) keys) d
  && match dict_get "environment_sources" d with
     | Some v => is_list v | None => true end
  && match dict_get "task_schema_sources" d with
     | Some v => is_list v | None => true end.

Definition schema : Schema :=
  {| rules := [{| rule_path := []; callable_name := "allowed_keys";
                  callable_args := keys |}];
     validate := fun d => {| is_valid := valid_config d;
                             get_failures_string := "invalid config" |} |}.

Definition file_schema (doc : Document) : ValidatedData :=
  {| is_valid := true; get_failures_string := "" |}.

(** A decoder for the few JSON texts the examples use. *)
Definition json_loads (s : string) : string + value :=
  if String.eqb s "null" then inr VNone
  else if String.eqb s "[]" then inr (VList [])
  else if String.eqb s "true" then inr (VBool true)
  else inl "Expecting value".

Definition object_hasattr (name : string) : bool :=
  existsb (String.eqb name) ["__class__"; "__dict__"; "__doc__"].

Definition yaml_text (doc : Document) : string := "machine: " ++ machine doc.

Definition rti : RunTimeInfo :=
  [("name", VStr "hpcflow"); ("is_frozen", VBool false);
   ("is_venv", VBool true); ("working_dir", VStr "/work")].

Definition dir : string := "/home/u/.hpcflow".

Definition document : Document := DEFAULT_CONFIG "host".

Definition the_loader : ConfigLoader :=
  {| _configurable_keys := keys;
     _meta_data := {| config_dir := dir;
                      config_file_path := joinpath dir "config.yml";
                      config_file_contents := yaml_text document;
                      config_invocation_key := "default";
                      config_schemas := [schema] |};
     _configured_data := [("log_directory", VStr "logs");
                          ("environment_sources", VList []);
                          ("task_schema_sources", VList [])];
     _cfg_file_dat_rt := document |}.

Definition world (f : io_fault) : World :=
  {| loader := the_loader;
     disk := {| files := [("config.yml", document)]; fault := f |};
     warnings := [] |}.

(** The same store after [log_directory] was removed from the file. *)
Definition document_unset : Document :=
  rt_with_config "default" [("environment_sources", VList []);
                            ("task_schema_sources", VList [])] document.

Definition world_unset : World :=
  {| loader := with_cfg_file_dat_rt document_unset
                 (with_configured_data [("environment_sources", VList []);
                                        ("task_schema_sources", VList [])]
                    the_loader);
     disk := {| files := [("config.yml", document_unset)]; fault := NoFault |};
     warnings := [] |}.

Definition config_of_default : dict :=
  [("log_directory", VStr "logs"); ("environment_sources", VList []);
   ("task_schema_sources", VList [])].

(** A store whose schemas admit one more key, [options], bound to
    [extra]. *)
Definition loader_with (extra : dict) : ConfigLoader :=
  {| _configurable_keys := (keys ++ ["options"])%list;
     _meta_data := {| config_dir := dir;
                      config_file_path := joinpath dir "config.yml";
                      config_file_contents := yaml_text document;
                      config_invocation_key := "default";
                      config_schemas := [] |};
     _configured_data := (config_of_default ++ extra)%list;
     _cfg_file_dat_rt :=
       rt_with_config "default" (config_of_default ++ extra)%list document |}.

Definition world_with (extra : dict) : World :=
  {| loader := loader_with extra;
     disk := {| files := [("config.yml", _cfg_file_dat_rt (loader_with extra))];
                fault := NoFault |};
     warnings := [] |}.

(** Paths of a small file system: [/], [/home] and [/home/u] exist. *)
Definition parent (p : string) : string :=
  if String.eqb p "/home/u/.hpcflow" then "/home/u"
  else if String.eqb p "/srv/cfg/hpcflow" then "/srv/cfg"
  else if String.eqb p "/home/u" then "/home"
  else "/".

Definition expanduser (p : string) : string :=
  if String.eqb p "~/.hpcflow" then "/home/u/.hpcflow" else p.

Definition absolute (p : string) : string := p.

Definition file_system : ResolveDir.FileSystem :=
  [("/", ResolveDir.Dir); ("/home", ResolveDir.Dir);
   ("/home/u", ResolveDir.Dir)].

(** Two profiles: one for processes outside any virtual environment, then a
    catch-all. *)
Definition profiles : pydict Profile :=
  [("plain", {| invocation := {| environment_setup := VNone;
                                 match_ := [("is_venv", VBool false)] |};
                config := [("log_directory", VStr "plain_logs")] |});
   ("default", {| invocation := {| environment_setup := VNone; match_ := [] |};
                  config := config_of_default |})].

(** A profile that asks for an attribute the run-time info does not have. *)
Definition host_profile : Profile :=
  {| invocation := {| environment_setup := VNone;
                      match_ := [("is_frozen", VBool false);
                                 ("hostname", VStr "login1")] |};
     config := [] |}.

(** A store read from a [config.yaml] that lists two environment sources. *)
Definition sources : list value := [VStr "a.yaml"; VStr "b.yaml"].

Definition document_sources : Document :=
  rt_with_config "default"
    [("log_directory", VStr "logs"); ("environment_sources", VList sources);
     ("task_schema_sources", VList [])] document.

Definition loader_sources : ConfigLoader :=
  {| _configurable_keys := keys;
     _meta_data := {| config_dir := dir;
                      config_file_path := joinpath dir "config.yaml";
                      config_file_contents := yaml_text document_sources;
                      config_invocation_key := "default";
                      config_schemas := [schema] |};
     _configured_data := [("log_directory", VStr "logs");
                          ("environment_sources", VList sources);
                          ("task_schema_sources", VList [])];
     _cfg_file_dat_rt := document_sources |}.

Definition world_sources : World :=
  {| loader := loader_sources;
     disk := {| files := [("config.yaml", document_sources)]; fault := NoFault |};
     warnings := [] |}.

(** Schemas that say no: one to any mapping with a log directory, one to
    every mapping. *)
Definition schema_without_logs : Schema :=
  {| rules := [];
     validate := fun d => {| is_valid := negb (dict_mem "log_directory" d);
                             get_failures_string := "log_directory is not allowed" |} |}.

Definition schema_never : Schema :=
  {| rules := [];
     validate := fun d => {| is_valid := false;
                             get_failures_string := "nothing is allowed" |} |}.

(** One task of the statistics, not started yet. *)
Definition task : dict :=
  [("order_id", VInt 0); ("task_id", VInt 1); ("scheduler_id", VInt 4021);
   ("working_directory", VStr "."); ("start_time", VNone);
   ("end_time", VNone); ("duration", VNone); ("archive_status", VNone);
   ("memory", VNone); ("hostname", VStr "")].

End Example.

(** ** Vocabulary of the statements *)

(** A profile matches when every pair of its [match] mapping equals the
    run-time attribute of that name. *)
Definition profile_matches (rti : RunTimeInfo) (p : Profile) : bool :=
  forallb (fun kv => match dict_get (fst kv) rti with
                     | Some a => py_eq a (snd kv)
                     | None => false
                     end) (match_ (invocation p)).

(** All the attributes the profiles ask for exist on the run-time info. *)
Definition attributes_known (rti : RunTimeInfo) (ps : pydict Profile) : Prop :=
  forall n p k v, In (n, p) ps -> In (k, v) (match_ (invocation p)) ->
                  dict_mem k rti = true.

(** The world with one more warning. *)
Definition warned (x : warning) (w : World) : World :=
  {| loader := loader w; disk := disk w; warnings := warnings w ++ [x] |}.

(** The world with the environment's next fault replaced. *)
Definition with_fault (f : io_fault) (w : World) : World :=
  {| loader := loader w;
     disk := {| files := files (disk w); fault := f |};
     warnings := warnings w |}.

(** The in-memory mapping and the active profile's subtree of the
    round-trip data are the same mapping. *)
Definition consistent (l : ConfigLoader) : Prop :=
  exists c, rt_config (_cfg_inv_key l) (_cfg_file_dat_rt l) = inr c
            /\ same_mapping c (_configured_data l).

(** The in-memory mapping is the active profile's subtree of the round-trip
    data, key for key and in the same order. *)
Definition aligned (l : ConfigLoader) : Prop :=
  rt_config (_cfg_inv_key l) (_cfg_file_dat_rt l) = inr (_configured_data l).

(** Two documents are the same but for the order of the keys in the config
    mapping of profile [key]. *)
Definition same_document (key : string) (a b : Document) : Prop :=
  rt_with_config key [] a = rt_with_config key [] b
  /\ exists ca cb, rt_config key a = inr ca /\ rt_config key b = inr cb
                   /\ same_mapping ca cb.

(** The file the loader was read from holds the round-trip data. *)
Definition persisted (w : World) : Prop :=
  exists doc,
    dict_get (file_name (loader w)) (files (disk w)) = Some doc
    /\ same_document (_cfg_inv_key (loader w)) doc (_cfg_file_dat_rt (loader w)).

Definition store_invariant (w : World) : Prop :=
  consistent (loader w) /\ persisted w.

(** The candidate mapping of [_modify_if_valid]. *)
Definition change (name : string) (new_value : value) (is_unset : bool)
  (d : dict) : dict :=
  if is_unset then dict_del name d else dict_set name new_value d.

(** The loader after the update step of [_modify_if_valid], after its
    [except] branch, and the files after a successful write. *)
Definition applied (name : string) (new_value : value) (is_unset : bool)
  (l : ConfigLoader) : ConfigLoader :=
  with_configured_data (change name new_value is_unset (_configured_data l))
    (with_cfg_file_dat_rt
       (match rt_config (_cfg_inv_key l) (_cfg_file_dat_rt l) with
        | inr c => rt_with_config (_cfg_inv_key l)
                     (change name new_value is_unset c) (_cfg_file_dat_rt l)
        | inl _ => _cfg_file_dat_rt l
        end) l).

Definition reinstated (name : string) (old_value : value) (l : ConfigLoader)
  : ConfigLoader :=
  with_configured_data (dict_set name old_value (_configured_data l))
    (with_cfg_file_dat_rt
       (match rt_config (_cfg_inv_key l) (_cfg_file_dat_rt l) with
        | inr c => rt_with_config (_cfg_inv_key l)
                     (dict_set name old_value c) (_cfg_file_dat_rt l)
        | inl _ => _cfg_file_dat_rt l
        end) l).

Definition written (l : ConfigLoader) (fs : pydict Document) : pydict Document :=
  dict_set (file_name l) (_cfg_file_dat_rt l)
    (dict_del tmp_name (dict_set tmp_name (_cfg_file_dat_rt l) fs)).

(** Two worlds hold the same store: same keys and meta-data, the same
    in-memory mapping, the same round-trip document, and the same content in
    the file the store was read from. *)
Definition same_store (w w' : World) : Prop :=
  _configurable_keys (loader w') = _configurable_keys (loader w)
  /\ _meta_data (loader w') = _meta_data (loader w)
  /\ same_mapping (_configured_data (loader w')) (_configured_data (loader w))
  /\ same_document (_cfg_inv_key (loader w))
        (_cfg_file_dat_rt (loader w')) (_cfg_file_dat_rt (loader w))
  /\ dict_get (file_name (loader w)) (files (disk w'))
     = dict_get (file_name (loader w)) (files (disk w)).

(** The process runs in a (non-conda) virtual environment. *)
Definition in_venv (sys : RunTime.Sys) : bool :=
  match RunTime.real_prefix sys with Some _ => true | None => false end
  || negb (String.eqb (RunTime.base_prefix sys) (RunTime.prefix sys)).

(** The directory is resolved and exists afterwards. *)
Definition resolves_and_creates (parent expanduser absolute : string -> string)
  (config_dir : ResolveDir.dir_arg) (env : pydict string)
  (fs : ResolveDir.FileSystem) : Prop :=
  exists fs',
    ResolveDir._resolve_config_dir parent expanduser absolute config_dir env fs
    = inr (absolute (ResolveDir.chosen_dir expanduser config_dir env), fs')
    /\ ResolveDir.is_dir (ResolveDir.chosen_dir expanduser config_dir env) fs'
       = true.

(** What a call that stored [x] under [name] leaves behind, from the world
    [w]: [x] is returned, and the in-memory mapping, the round-trip subtree
    and the configuration file hold it. *)
Definition stored (name : string) (x : value) (w : World)
  (r : (exception + value) * World) : Prop :=
  fst r = inr x
  /\ dict_get name (_configured_data (loader (snd r))) = Some x
  /\ (exists c, rt_config (_cfg_inv_key (loader w))
                  (_cfg_file_dat_rt (loader (snd r))) = inr c
                /\ dict_get name c = Some x)
  /\ dict_get (file_name (loader w)) (files (disk (snd r)))
     = Some (_cfg_file_dat_rt (loader (snd r))).

(** What a mutator has decided to do once its checks are through: raise,
    warn and return, or call [_modify_if_valid]. *)
Inductive plan : Type :=
| PlanRaise (e : exception)
| PlanWarn (x : warning)
| PlanModify (new_value : value) (is_unset : bool).

Definition set_plan (name : string) (old_value new_value : value) : plan :=
  if py_eq old_value new_value then PlanWarn (AlreadySet name new_value)
  else PlanModify new_value false.

Section Vocabulary.

Variable json_loads : string -> string + value.
Variable object_hasattr : string -> bool.

Definition prepare_plan (name : string) (v : value) (is_json : bool)
  (l : ConfigLoader) (k : value -> value -> plan) : plan :=
  if negb (mem name (_configurable_keys l))
  then PlanRaise (ConfigChangeInvalidError name)
  else
    let decoded :=
      if is_json then
        match v with
        | VStr s => match json_loads s with
                    | inl err => inl (ConfigChangeInvalidJSONError name s err)
                    | inr x => inr x
                    end
        | _ => inl TypeError
        end
      else inr v in
    match decoded with
    | inl e => PlanRaise e
    | inr new_value =>
        match getattr object_hasattr l name with
        | inl e => PlanRaise e
        | inr old_value => k old_value new_value
        end
    end.

Definition plan_of (m : mutation) (l : ConfigLoader) : plan :=
  match m with
  | SetValue name v is_json =>
      prepare_plan name v is_json l (set_plan name)
  | UnsetValue name =>
      prepare_plan name VNone false l
        (fun _ _ => if negb (dict_mem name (_configured_data l))
                    then PlanWarn (AlreadyNotSet name)
                    else PlanModify VNone true)
  | AppendValue name v is_json =>
      prepare_plan name v is_json l
        (fun old_value new_value =>
           match old_value with
           | VList old => set_plan name old_value (VList (old ++ [new_value]))
           | _ => PlanRaise (ConfigChangeTypeInvalidError name
                               (type_name old_value))
           end)
  | PrependValue name v is_json =>
      prepare_plan name v is_json l
        (fun old_value new_value =>
           match old_value with
           | VList old => set_plan name old_value (VList ([new_value] ++ old))
           | _ => PlanRaise (ConfigChangeTypeInvalidError name
                               (type_name old_value))
           end)
  | PopValue name index =>
      prepare_plan name VNone false l
        (fun old_value _ =>
           match old_value with
           | VList old =>
               match list_pop index old with
               | inr new => set_plan name old_value (VList new)
               | inl IndexError =>
                   PlanRaise (ConfigChangePopIndexError name
                                (List.length old) index)
               | inl e => PlanRaise e
               end
           | VDict _ => PlanRaise (KeyError (VInt index))
           | _ => PlanRaise (ConfigChangeTypeInvalidError name
                               (type_name old_value))
           end)
  end.

Definition run_plan (name : string) (p : plan) : M value :=
  match p with
  | PlanRaise e => raise e
  | PlanWarn x => warn x ;;; ret VNone
  | PlanModify new_value is_unset => _modify_if_valid name new_value is_unset
  end.

(** The worlds a process gets to from the world [w0]: by any read, any
    mutation, and any change of what the environment will do to the next
    write. *)
Inductive reachable_from (w0 : World) : World -> Prop :=
| reach_start : reachable_from w0 w0
| reach_get name w :
    reachable_from w0 w ->
    reachable_from w0 (snd (get object_hasattr name w))
| reach_mutate m w :
    reachable_from w0 w ->
    reachable_from w0 (snd (mutate json_loads object_hasattr m w))
| reach_fault f w :
    reachable_from w0 w -> reachable_from w0 (with_fault f w).

End Vocabulary.

(** * Facts *)

(** ** Dictionaries *)

Section PyDictFacts.
Context {A : Type}.
Implicit Types (d : pydict A) (k : string) (v : A).

Lemma dict_get_set_same k v d : dict_get k (dict_set k v d) = Some v.
Proof.
  induction d as [|[k' v'] d IH]; simpl.
  - now rewrite String.eqb_refl.
  - destruct (String.eqb k k') eqn:E; simpl; rewrite E; auto.
Qed.

Lemma dict_get_set_other k k' v d :
  k <> k' -> dict_get k' (dict_set k v d) = dict_get k' d.
Proof.
  intros N. induction d as [|[k0 v0] d IH]; simpl.
  - destruct (String.eqb k' k) eqn:E; auto.
    apply String.eqb_eq in E. congruence.
  - destruct (String.eqb k k0) eqn:E; simpl.
    + apply String.eqb_eq in E. subst k0.
      destruct (String.eqb k' k) eqn:E'; auto.
      apply String.eqb_eq in E'. congruence.
    + now rewrite IH.
Qed.

Lemma dict_get_del_same k d : dict_get k (dict_del k d) = None.
Proof.
  induction d as [|[k' v'] d IH]; simpl; auto.
  destruct (String.eqb k k') eqn:E; simpl; auto. now rewrite E.
Qed.

Lemma dict_get_del_other k k' d :
  k <> k' -> dict_get k' (dict_del k d) = dict_get k' d.
Proof.
  intros N. induction d as [|[k0 v0] d IH]; simpl; auto.
  destruct (String.eqb k k0) eqn:E; simpl.
  - apply String.eqb_eq in E. subst k0.
    destruct (String.eqb k' k) eqn:E'; auto.
    apply String.eqb_eq in E'. congruence.
  - now rewrite IH.
Qed.

(** Writing back the value a key already has changes nothing, not even
    the order. *)
Lemma dict_set_same k v d : dict_get k d = Some v -> dict_set k v d = d.
Proof.
  induction d as [|[k' v'] d IH]; simpl; try discriminate.
  destruct (String.eqb k k') eqn:E; intros H.
  - now inversion H.
  - now rewrite IH.
Qed.

Lemma dict_set_set k v v' d : dict_set k v (dict_set k v' d) = dict_set k v d.
Proof.
  induction d as [|[k' v0] d IH]; simpl.
  - now rewrite String.eqb_refl.
  - destruct (String.eqb k k') eqn:E; simpl; rewrite E; auto.
    now rewrite IH.
Qed.

(** Overwriting and then restoring a key gives back the very same
    dictionary. *)
Lemma dict_set_restore k v v' d :
  dict_get k d = Some v -> dict_set k v (dict_set k v' d) = d.
Proof. intros H. rewrite dict_set_set. now apply dict_set_same. Qed.

(** Deleting and then restoring a key gives back the same mapping (the
    key now comes last). *)
Lemma dict_del_restore k v d :
  dict_get k d = Some v -> same_mapping (dict_set k v (dict_del k d)) d.
Proof.
  intros H k'. destruct (String.eqb k k') eqn:E.
  - apply String.eqb_eq in E. subst k'. now rewrite dict_get_set_same.
  - apply String.eqb_neq in E.
    rewrite dict_get_set_other, dict_get_del_other; auto.
Qed.

Lemma same_mapping_refl d : same_mapping d d.
Proof. now intros k. Qed.

Lemma same_mapping_sym d e : same_mapping d e -> same_mapping e d.
Proof. intros H k. now rewrite H. Qed.

Lemma same_mapping_trans d e f :
  same_mapping d e -> same_mapping e f -> same_mapping d f.
Proof. intros H1 H2 k. now rewrite H1, H2. Qed.

Lemma same_mapping_set k v d e :
  same_mapping d e -> same_mapping (dict_set k v d) (dict_set k v e).
Proof.
  intros H k'. destruct (String.eqb k k') eqn:E.
  - apply String.eqb_eq in E. subst k'. now rewrite !dict_get_set_same.
  - apply String.eqb_neq in E. rewrite !dict_get_set_other; auto.
Qed.

Lemma same_mapping_del k d e :
  same_mapping d e -> same_mapping (dict_del k d) (dict_del k e).
Proof.
  intros H k'. destruct (String.eqb k k') eqn:E.
  - apply String.eqb_eq in E. subst k'. now rewrite !dict_get_del_same.
  - apply String.eqb_neq in E. rewrite !dict_get_del_other; auto.
Qed.

Lemma same_mapping_mem k d e :
  same_mapping d e -> dict_mem k d = dict_mem k e.
Proof. intros H. unfold dict_mem. now rewrite H. Qed.

Lemma dict_get_In k v d : dict_get k d = Some v -> In (k, v) d.
Proof.
  induction d as [|[k' v'] d IH]; simpl; try discriminate.
  destruct (String.eqb k k') eqn:E; intros H.
  - apply String.eqb_eq in E. inversion H. subst. now left.
  - right. auto.
Qed.

Lemma In_dict_get k v d :
  NoDup (map fst d) -> In (k, v) d -> dict_get k d = Some v.
Proof.
  induction d as [|[k' v'] d IH]; simpl; intros ND HI; [easy|].
  inversion ND as [|? ? Hn ND']; subst.
  destruct HI as [HI|HI].
  - inversion HI; subst. now rewrite String.eqb_refl.
  - destruct (String.eqb k k') eqn:E.
    + apply String.eqb_eq in E. subst k'. exfalso. apply Hn.
      change k with (fst (k, v)). now apply in_map.
    + auto.
Qed.
End PyDictFacts.

(** ** Profile selection *)

Lemma match_loop_known rti m :
  (forall k v, In (k, v) m -> dict_mem k rti = true) ->
  match_loop rti m =
  inr (forallb (fun kv => match dict_get (fst kv) rti with
                          | Some a => py_eq a (snd kv)
                          | None => false
                          end) m).
Proof.
  induction m as [|[k v] m IH]; intros K; simpl; auto.
  assert (Hk : dict_mem k rti = true) by (apply (K k v); now left).
  unfold getattr_rti, dict_mem in *.
  destruct (dict_get k rti) as [a|]; [|discriminate].
  destruct (py_eq a v); simpl; auto.
  apply IH. intros k' v' HI. apply (K k' v'). now right.
Qed.

Lemma profile_loop_known rti ps b :
  attributes_known rti ps ->
  profile_loop rti ps (Some b) =
  match find (fun np => profile_matches rti (snd np)) ps with
  | Some np => inr (Some np, Some true)
  | None => inr (None, Some false)
  end \/
  (ps = [] /\ profile_loop rti ps (Some b) = inr (None, Some b)).
Proof.
  revert b. induction ps as [|[n p] ps IH]; intros b K.
  - right. auto.
  - left. simpl.
    rewrite match_loop_known
      by (intros k v HI; apply (K n p k v); [now left|assumption]).
    fold (profile_matches rti p).
    destruct (profile_matches rti p); auto.
    destruct (IH false) as [H|[-> H]].
    + intros n' p' k v HI. apply (K n' p' k v). now right.
    + exact H.
    + simpl. reflexivity.
Qed.

(** On a non-empty sequence of profiles whose attributes all exist, the
    loops return the first profile in document order that matches, and
    raise [ConfigFileInvocationIncompatibleError] when none does. *)
Lemma select_profile_nonempty rti n p ps :
  attributes_known rti ((n, p) :: ps) ->
  select_profile rti ((n, p) :: ps) =
  match find (fun np => profile_matches rti (snd np)) ((n, p) :: ps) with
  | Some np => inr (Some np)
  | None => inl ConfigFileInvocationIncompatibleError
  end.
Proof.
  intros K. unfold select_profile. simpl.
  rewrite match_loop_known
    by (intros k v HI; apply (K n p k v); [now left|assumption]).
  fold (profile_matches rti p).
  destruct (profile_matches rti p); auto.
  destruct (profile_loop_known rti ps false) as [H|[-> H]].
  - intros n' p' k v HI. apply (K n' p' k v). now right.
  - rewrite H. now destruct (find _ ps).
  - reflexivity.
Qed.

(** A profile with an empty [match] mapping matches whatever the run-time
    info is. *)
Lemma empty_match_matches rti p :
  match_ (invocation p) = [] -> profile_matches rti p = true.
Proof. intros E. unfold profile_matches. now rewrite E. Qed.

(** Whatever the loops select is an entry of the sequence. *)
Lemma profile_loop_In rti ps b x b' :
  profile_loop rti ps b = inr (Some x, b') -> In x ps.
Proof.
  revert b. induction ps as [|[n p] ps IH]; intros b; simpl.
  - discriminate.
  - destruct (match_loop rti (match_ (invocation p))) as [e|[|]];
      try discriminate.
    + intros H. inversion H. now left.
    + intros H. right. eauto.
Qed.

Lemma select_profile_In rti ps x :
  select_profile rti ps = inr (Some x) -> In x ps.
Proof.
  unfold select_profile.
  destruct (profile_loop rti ps None) as [e|[sel [[|]|]]] eqn:E;
    try discriminate.
  intros H. inversion H. subst sel. eapply profile_loop_In; eauto.
Qed.

(** C2 (the code at the failing input): with no profile at all the outer
    loop never binds [is_match], and the test after the loop raises
    [UnboundLocalError] instead of
    [ConfigFileInvocationIncompatibleError]. *)
Theorem select_profile_empty_unbound (rti : RunTimeInfo) :
  select_profile rti [] = inl (UnboundLocalError "is_match")
  /\ select_profile rti [] <> inl ConfigFileInvocationIncompatibleError.
Proof. split; [reflexivity | discriminate]. Qed.

(** ** The store *)

Section LoaderFacts.

Variable json_loads : string -> string + value.
Variable object_hasattr : string -> bool.

Local Abbreviation get := (get object_hasattr).
Local Abbreviation getattr := (getattr object_hasattr).
Local Abbreviation has_ordinary_attribute := (has_ordinary_attribute object_hasattr).
Local Abbreviation _prepare_modify := (_prepare_modify json_loads object_hasattr).
Local Abbreviation set_value := (set_value json_loads object_hasattr).
Local Abbreviation unset_value := (unset_value json_loads object_hasattr).
Local Abbreviation append_value := (append_value json_loads object_hasattr).
Local Abbreviation prepend_value := (prepend_value json_loads object_hasattr).
Local Abbreviation pop_value := (pop_value json_loads object_hasattr).
Local Abbreviation mutate := (mutate json_loads object_hasattr).

Lemma world_eta w :
  {| loader := loader w; disk := disk w; warnings := warnings w |} = w.
Proof. now destruct w. Qed.

Lemma meta_data_get_keys m name :
  meta_data_get m name = None <-> mem name meta_keys = false.
Proof.
  unfold meta_data_get, meta_keys, mem. simpl.
  repeat match goal with
         | |- context [String.eqb name ?s] => destruct (String.eqb name s)
         end; simpl; split; intros; congruence.
Qed.

(** Reading never changes the world. *)
Lemma get_world name w : snd (get name w) = w.
Proof.
  unfold Config.get, bind, self, lift. simpl.
  destruct (getattr (loader w) name); reflexivity.
Qed.

Lemma get_result name w : get name w = (getattr (loader w) name, w).
Proof.
  unfold Config.get, bind, self, lift. simpl.
  destruct (getattr (loader w) name); reflexivity.
Qed.

(** [_prepare_modify] never changes the world either. *)
Lemma prepare_world name v is_json w : snd (_prepare_modify name v is_json w) = w.
Proof.
  unfold Config._prepare_modify, bind, self. simpl.
  destruct (mem name (_configurable_keys (loader w))); simpl; auto.
  destruct is_json; simpl.
  - destruct v; simpl; auto.
    destruct (json_loads s); simpl; auto.
    rewrite get_result. destruct (getattr (loader w) name); reflexivity.
  - rewrite get_result. destruct (getattr (loader w) name); reflexivity.
Qed.

Lemma prepare_not_configurable name v is_json w :
  mem name (_configurable_keys (loader w)) = false ->
  _prepare_modify name v is_json w = (inl (ConfigChangeInvalidError name), w).
Proof.
  intros H. unfold Config._prepare_modify, bind, self. simpl.
  now rewrite H.
Qed.

(** C4 (amended): on a name outside the allow-list [set_value] and
    [unset_value] fail with [ConfigChangeInvalidError], and [get], when the
    name is not a meta-data key either and ordinary attribute lookup does
    not find it, fails with [ConfigUnknownItemError]; all three leave the
    world as it was. *)
Theorem unknown_name_rejected name v is_json w :
  mem name (_configurable_keys (loader w)) = false ->
  set_value name v is_json w = (inl (ConfigChangeInvalidError name), w)
  /\ unset_value name w = (inl (ConfigChangeInvalidError name), w)
  /\ (mem name meta_keys = false -> has_ordinary_attribute name = false ->
      get name w = (inl (ConfigUnknownItemError name), w)).
Proof.
  intros H. repeat split.
  - unfold Config.set_value, bind. now rewrite prepare_not_configurable.
  - unfold Config.unset_value, bind. now rewrite prepare_not_configurable.
  - intros Hm Ha. rewrite get_result. unfold Config.getattr, __getattr__.
    rewrite Ha. apply meta_data_get_keys with (m := _meta_data (loader w)) in Hm.
    now rewrite Hm, H.
Qed.

(** C8: when the value [_prepare_modify] hands back equals the current
    one, [set_value] returns [None] after one warning; the loader and the
    directory are untouched, and [get] answers as before. *)
Theorem set_value_same_is_noop name v is_json old_value new_value w :
  mem name (_configurable_keys (loader w)) = true ->
  fst (_prepare_modify name v is_json w) = inr (old_value, new_value) ->
  py_eq old_value new_value = true ->
  set_value name v is_json w = (inr VNone, warned (AlreadySet name new_value) w)
  /\ loader (warned (AlreadySet name new_value) w) = loader w
  /\ disk (warned (AlreadySet name new_value) w) = disk w
  /\ get name (warned (AlreadySet name new_value) w)
     = (getattr (loader w) name, warned (AlreadySet name new_value) w)
  /\ fst (get name w) = inr old_value.
Proof.
  intros Hk Hp He.
  assert (Hw := prepare_world name v is_json w).
  destruct (_prepare_modify name v is_json w) as [r w'] eqn:E.
  simpl in *. subst w' r.
  repeat split.
  - unfold Config.set_value, bind. rewrite E.
    unfold _set_value. rewrite He. reflexivity.
  - rewrite get_result. reflexivity.
  - revert E. unfold Config._prepare_modify, bind, self. simpl.
    rewrite Hk. simpl. rewrite !get_result. simpl.
    destruct is_json; simpl.
    + destruct v; simpl; try discriminate.
      destruct (json_loads s); simpl; try discriminate.
      rewrite get_result.
      destruct (getattr (loader w) name); simpl; intros E; now inversion E.
    + rewrite get_result.
      destruct (getattr (loader w) name); simpl; intros E; now inversion E.
Qed.

(** *** Every mutator follows its plan *)

Local Abbreviation plan_of := (plan_of json_loads object_hasattr).

Lemma set_value_plan name old_value new_value w :
  _set_value name old_value new_value w
  = run_plan name (set_plan name old_value new_value) w.
Proof.
  unfold _set_value, set_plan. now destruct (py_eq old_value new_value).
Qed.

Lemma prepare_plan_run name v is_json (k : value * value -> M value)
      (kp : value -> value -> plan) w :
  (forall o n, k (o, n) w = run_plan name (kp o n) w) ->
  bind (_prepare_modify name v is_json) k w
  = run_plan name (prepare_plan json_loads object_hasattr name v is_json
                                (loader w) kp) w.
Proof.
  intros Hk.
  unfold Config._prepare_modify, prepare_plan, bind, self. simpl.
  destruct (mem name (_configurable_keys (loader w))); simpl; auto.
  destruct is_json; simpl.
  - destruct v; simpl; auto.
    destruct (json_loads s); simpl; auto.
    rewrite get_result. destruct (getattr (loader w) name); simpl; auto.
  - rewrite get_result. destruct (getattr (loader w) name); simpl; auto.
Qed.

Lemma mutate_plan m w :
  mutate m w = run_plan (mutation_name m) (plan_of m (loader w)) w.
Proof.
  destruct m as [name v j|name|name v j|name v j|name index]; simpl.
  - unfold Config.set_value. apply prepare_plan_run.
    intros. apply set_value_plan.
  - unfold Config.unset_value. apply prepare_plan_run.
    intros o n. unfold _unset_value, bind, self. simpl.
    now destruct (dict_mem name (_configured_data (loader w))).
  - unfold Config.append_value. apply prepare_plan_run.
    intros o n. destruct o; simpl; auto. apply set_value_plan.
  - unfold Config.prepend_value. apply prepare_plan_run.
    intros o n. destruct o; simpl; auto. apply set_value_plan.
  - unfold Config.pop_value. apply prepare_plan_run.
    intros o n. destruct o; simpl; auto.
    destruct (list_pop index l) as [[]|]; simpl; auto. apply set_value_plan.
Qed.

(** The plan is made from the loader alone: the directory and its faults
    play no part in it. *)
Lemma plan_of_with_fault m f w :
  plan_of m (loader (with_fault f w)) = plan_of m (loader w).
Proof. reflexivity. Qed.

(** *** The round-trip data *)

Lemma rt_config_with key c c' rt :
  rt_config key rt = inr c ->
  rt_config key (rt_with_config key c' rt) = inr c'.
Proof.
  unfold rt_config, rt_with_config, py_getitem.
  destruct (dict_get key (configs rt)) eqn:E; [|discriminate].
  intros _. simpl. now rewrite dict_get_set_same.
Qed.

Lemma rt_with_with key c c' rt :
  rt_with_config key c (rt_with_config key c' rt) = rt_with_config key c rt.
Proof.
  unfold rt_with_config.
  destruct (dict_get key (configs rt)) eqn:E; simpl.
  - rewrite dict_get_set_same. simpl. now rewrite dict_set_set.
  - now rewrite E.
Qed.


(** *** [_modify_if_valid], case by case *)

Lemma modify_absent name new_value is_unset w :
  dict_get name (_configured_data (loader w)) = None ->
  _modify_if_valid name new_value is_unset w = (inl (KeyError (VStr name)), w).
Proof.
  intros H. unfold _modify_if_valid, bind, self, lift, py_getitem. simpl.
  now rewrite H.
Qed.

Lemma modify_present name new_value is_unset old_value c w :
  rt_config (_cfg_inv_key (loader w)) (_cfg_file_dat_rt (loader w)) = inr c ->
  dict_get name (_configured_data (loader w)) = Some old_value ->
  (is_unset = true -> dict_mem name c = true) ->
  _modify_if_valid name new_value is_unset w =
  match _validate_configured_data (loader w)
          (change name new_value is_unset (_configured_data (loader w))) with
  | inl err => (inl (ConfigChangeValidationError name err), w)
  | inr _ =>
      let l' := applied name new_value is_unset (loader w) in
      match fault (disk w) with
      | NoFault =>
          (inr (if is_unset then VBool true else new_value),
           {| loader := l';
              disk := {| files := written l' (files (disk w));
                         fault := NoFault |};
              warnings := warnings w |})
      | FailWriteTmp msg =>
          (inl (ConfigChangeFileUpdateError name (OSError msg)),
           {| loader := reinstated name old_value l';
              disk := disk w; warnings := warnings w |})
      | FailReplace msg =>
          (inl (ConfigChangeFileUpdateError name (OSError msg)),
           {| loader := reinstated name old_value l';
              disk := {| files := dict_set tmp_name (_cfg_file_dat_rt l')
                                    (files (disk w));
                         fault := FailReplace msg |};
              warnings := warnings w |})
      end
  end.
Proof.
  intros Hc Hg Hm.
  assert (Hmem : dict_mem name (_configured_data (loader w)) = true)
    by (unfold dict_mem; now rewrite Hg).
  destruct w as [l [fs flt] ws]. simpl in *.
  assert (Hc' : forall c', rt_config (config_invocation_key (_meta_data l))
                  (rt_with_config (config_invocation_key (_meta_data l)) c'
                     (_cfg_file_dat_rt l)) = inr c')
    by (intros c'; now apply rt_config_with with (c := c)).
  unfold _modify_if_valid, bind, self, lift, py_getitem, py_delitem,
    rt_delitem, rt_setitem, _update_config_file, try_except, the_disk,
    set_disk, set_self, raise, ret, applied, reinstated, written, change,
    _cfg_inv_key in *.
  simpl. rewrite Hg. simpl.
  destruct is_unset; simpl.
  - rewrite Hmem. simpl.
    destruct (_validate_configured_data l (dict_del name (_configured_data l)));
      simpl; auto.
    rewrite Hc. unfold py_delitem. simpl. rewrite (Hm eq_refl). simpl.
    rewrite ?Hmem. simpl.
    destruct flt; simpl; rewrite ?Hc'; reflexivity.
  - destruct (_validate_configured_data l
                (dict_set name new_value (_configured_data l))); simpl; auto.
    rewrite Hc. simpl.
    destruct flt; simpl; rewrite ?Hc'; reflexivity.
Qed.

(** *** Reverting *)

Lemma change_restore name new_value is_unset old_value (d : dict) :
  dict_get name d = Some old_value ->
  same_mapping (dict_set name old_value (change name new_value is_unset d)) d.
Proof.
  intros H. destruct is_unset; simpl.
  - now apply dict_del_restore.
  - rewrite dict_set_restore by assumption. apply same_mapping_refl.
Qed.

Lemma same_document_refl key c rt :
  rt_config key rt = inr c -> same_document key rt rt.
Proof.
  intros Hc. split; auto. exists c, c. repeat split; auto.
Qed.

Lemma file_name_not_tmp l : file_name l <> tmp_name.
Proof. unfold file_name, tmp_name. destruct (String.eqb _ _); discriminate. Qed.

(** The [except] branch undoes the update step, up to the position of
    [name] among the keys. *)
Lemma reinstated_applied name new_value is_unset old_value c l :
  rt_config (_cfg_inv_key l) (_cfg_file_dat_rt l) = inr c ->
  same_mapping c (_configured_data l) ->
  dict_get name (_configured_data l) = Some old_value ->
  let l' := reinstated name old_value (applied name new_value is_unset l) in
  _configurable_keys l' = _configurable_keys l
  /\ _meta_data l' = _meta_data l
  /\ same_mapping (_configured_data l') (_configured_data l)
  /\ same_document (_cfg_inv_key l) (_cfg_file_dat_rt l') (_cfg_file_dat_rt l).
Proof.
  intros Hc Hs Hg. unfold reinstated, applied, _cfg_inv_key in *. simpl.
  rewrite Hc. rewrite (rt_config_with _ c _ _ Hc). rewrite rt_with_with.
  repeat split; auto.
  - now apply change_restore.
  - now rewrite rt_with_with.
  - exists (dict_set name old_value (change name new_value is_unset c)), c.
    repeat split; auto.
    + now apply rt_config_with with (c := c).
    + apply change_restore. now rewrite Hs.
Qed.


Lemma getattr_same l l' name :
  _configurable_keys l' = _configurable_keys l ->
  _meta_data l' = _meta_data l ->
  same_mapping (_configured_data l') (_configured_data l) ->
  getattr l' name = getattr l name.
Proof.
  intros Hk Hm Hs. unfold Config.getattr, __getattr__.
  now rewrite Hk, Hm, (Hs name).
Qed.

Lemma same_store_refl w : consistent (loader w) -> same_store w w.
Proof.
  intros [c [Hc Hs]]. repeat split; auto.
  exists c, c. repeat split; auto.
Qed.

Lemma same_store_warned x w : consistent (loader w) -> same_store w (warned x w).
Proof. intros H. now apply same_store_refl in H. Qed.

(** [_modify_if_valid] on a directory that refuses the write. *)
Lemma modify_failed_write name new_value is_unset w msg :
  consistent (loader w) ->
  fault (disk w) = FailWriteTmp msg \/ fault (disk w) = FailReplace msg ->
  same_store w (snd (_modify_if_valid name new_value is_unset w))
  /\ (fst (_modify_if_valid name new_value is_unset w)
      = inl (ConfigChangeFileUpdateError name (OSError msg))
      \/ (fst (_modify_if_valid name new_value is_unset w)
          = fst (_modify_if_valid name new_value is_unset (with_fault NoFault w))
          /\ snd (_modify_if_valid name new_value is_unset w) = w
          /\ snd (_modify_if_valid name new_value is_unset (with_fault NoFault w))
             = with_fault NoFault w)).
Proof.
  intros Hcons Hf. pose proof Hcons as [c [Hc Hs]].
  destruct (dict_get name (_configured_data (loader w))) as [old_value|] eqn:Hg.
  - assert (Hm : is_unset = true -> dict_mem name c = true)
      by (intros _; unfold dict_mem; now rewrite (Hs name), Hg).
    rewrite (modify_present name new_value is_unset old_value c w Hc Hg Hm).
    rewrite (modify_present name new_value is_unset old_value c
               (with_fault NoFault w) Hc Hg Hm).
    simpl.
    destruct (_validate_configured_data (loader w)
                (change name new_value is_unset (_configured_data (loader w)))).
    + simpl. split; [now apply same_store_refl|]. right. auto.
    + destruct (reinstated_applied name new_value is_unset old_value c
                  (loader w) Hc Hs Hg) as [H1 [H2 [H3 H4]]].
      destruct Hf as [Hf|Hf]; rewrite Hf; simpl.
      * split; [|now left]. repeat split; auto; apply H4.
      * split; [|now left]. repeat split; auto; try apply H4. simpl.
        apply dict_get_set_other. intros E. symmetry in E.
        now apply file_name_not_tmp in E.
  - rewrite !modify_absent by assumption. simpl.
    split; [now apply same_store_refl|]. right. auto.
Qed.

(** On a directory that refuses the write, every mutator leaves the allow-list,
    the meta-data and the file as they were, and every key of the in-memory
    mapping and of the round-trip subtree with the value it had (the order of
    the keys apart), so that [get] answers as before the call; and either the
    call raises [ConfigChangeFileUpdateError], or it never came to writing:
    it ends as on a healthy directory, and changes nothing there either. *)
Theorem failed_write_reverts m w msg :
  consistent (loader w) ->
  fault (disk w) = FailWriteTmp msg \/ fault (disk w) = FailReplace msg ->
  same_store w (snd (mutate m w))
  /\ fst (get (mutation_name m) (snd (mutate m w)))
     = fst (get (mutation_name m) w)
  /\ (fst (mutate m w)
      = inl (ConfigChangeFileUpdateError (mutation_name m) (OSError msg))
      \/ (fst (mutate m w) = fst (mutate m (with_fault NoFault w))
          /\ loader (snd (mutate m w)) = loader w
          /\ loader (snd (mutate m (with_fault NoFault w))) = loader w
          /\ files (disk (snd (mutate m (with_fault NoFault w))))
             = files (disk w))).
Proof.
  intros Hcons Hf.
  assert (Hmain :
    same_store w (snd (mutate m w))
    /\ (fst (mutate m w)
        = inl (ConfigChangeFileUpdateError (mutation_name m) (OSError msg))
        \/ (fst (mutate m w) = fst (mutate m (with_fault NoFault w))
            /\ loader (snd (mutate m w)) = loader w
            /\ loader (snd (mutate m (with_fault NoFault w))) = loader w
            /\ files (disk (snd (mutate m (with_fault NoFault w))))
               = files (disk w)))).
  { rewrite !mutate_plan. rewrite plan_of_with_fault.
    destruct (plan_of m (loader w)) as [e|x|new_value is_unset]; simpl.
    - split; [now apply same_store_refl|]. right. auto.
    - split; [now apply same_store_warned|]. right. auto.
    - destruct (modify_failed_write (mutation_name m) new_value is_unset w msg
                  Hcons Hf) as [H1 [H2|[H2 [H3 H4]]]].
      + split; auto.
      + split; auto. right. rewrite H3, H4. auto. }
  destruct Hmain as [Hs Hr]. split; [exact Hs | split; [| exact Hr]].
  rewrite !get_result. simpl.
  destruct Hs as [H1 [H2 [H3 _]]]. now apply getattr_same.
Qed.

(** *** The invariant *)

Lemma same_document_trans key a b c :
  same_document key a b -> same_document key b c -> same_document key a c.
Proof.
  intros [E1 [ca [cb [Ha [Hb S1]]]]] [E2 [cb' [cc [Hb' [Hc S2]]]]].
  split; [congruence|]. exists ca, cc. repeat split; auto.
  rewrite Hb in Hb'. inversion Hb'. subst cb'.
  eapply same_mapping_trans; eauto.
Qed.

Lemma same_document_sym key a b :
  same_document key a b -> same_document key b a.
Proof.
  intros [E1 [ca [cb [Ha [Hb S1]]]]]. split; [congruence|].
  exists cb, ca. repeat split; auto. now apply same_mapping_sym.
Qed.

Lemma same_mapping_change name new_value is_unset (d e : dict) :
  same_mapping d e ->
  same_mapping (change name new_value is_unset d)
               (change name new_value is_unset e).
Proof.
  intros H. destruct is_unset; simpl.
  - now apply same_mapping_del.
  - now apply same_mapping_set.
Qed.

Lemma applied_consistent name new_value is_unset l :
  consistent l -> consistent (applied name new_value is_unset l).
Proof.
  intros [c [Hc Hs]]. unfold consistent, applied, _cfg_inv_key in *. simpl.
  rewrite Hc. exists (change name new_value is_unset c). split.
  - now apply rt_config_with with (c := c).
  - now apply same_mapping_change.
Qed.

Lemma reinstated_consistent name old_value l :
  consistent l -> consistent (reinstated name old_value l).
Proof.
  intros [c [Hc Hs]]. unfold consistent, reinstated, _cfg_inv_key in *. simpl.
  rewrite Hc. exists (dict_set name old_value c). split.
  - now apply rt_config_with with (c := c).
  - now apply same_mapping_set.
Qed.

Lemma file_name_applied name new_value is_unset l :
  file_name (applied name new_value is_unset l) = file_name l.
Proof. reflexivity. Qed.

(** [_modify_if_valid] keeps the invariant, whatever the directory does. *)
Lemma modify_keeps_invariant name new_value is_unset w :
  store_invariant w ->
  store_invariant (snd (_modify_if_valid name new_value is_unset w)).
Proof.
  intros [Hcons Hper]. pose proof Hcons as [c [Hc Hs]].
  destruct (dict_get name (_configured_data (loader w))) as [old_value|] eqn:Hg.
  - assert (Hm : is_unset = true -> dict_mem name c = true)
      by (intros _; unfold dict_mem; now rewrite (Hs name), Hg).
    rewrite (modify_present name new_value is_unset old_value c w Hc Hg Hm).
    destruct (_validate_configured_data (loader w)
                (change name new_value is_unset (_configured_data (loader w))));
      [now split|].
    pose proof (applied_consistent name new_value is_unset _ Hcons) as Ha.
    pose proof (reinstated_consistent name old_value _ Ha) as Hr.
    destruct (reinstated_applied name new_value is_unset old_value c
                (loader w) Hc Hs Hg) as [H1 [H2 [H3 H4]]].
    destruct Hper as [doc [Hd Hsd]].
    assert (Hback : same_document (_cfg_inv_key (loader w)) doc
              (_cfg_file_dat_rt (reinstated name old_value
                 (applied name new_value is_unset (loader w)))))
      by (eapply same_document_trans; [exact Hsd|];
          now apply same_document_sym).
    destruct (fault (disk w)); simpl; (split; [assumption|]).
    + destruct Ha as [c' [Hc' _]].
      eexists. split.
      * unfold written. simpl. apply dict_get_set_same.
      * eapply same_document_refl. exact Hc'.
    + exists doc. split; auto.
    + exists doc. split; auto. simpl.
      rewrite dict_get_set_other; auto.
      intros E. symmetry in E. now apply file_name_not_tmp in E.
  - rewrite modify_absent by assumption. now split.
Qed.

Lemma mutate_keeps_invariant m w :
  store_invariant w -> store_invariant (snd (mutate m w)).
Proof.
  intros H. rewrite mutate_plan.
  destruct (plan_of m (loader w)) as [e|x|new_value is_unset]; simpl; auto.
  now apply modify_keeps_invariant.
Qed.

End LoaderFacts.

(** ** The invariant over the life of the process *)

Lemma append_inj_l (p a b : string) : (p ++ a = p ++ b)%string -> a = b.
Proof.
  induction p as [|ch p IH]; simpl; intros H; auto.
  inversion H. auto.
Qed.

Lemma joinpath_inj dir a b : joinpath dir a = joinpath dir b -> a = b.
Proof.
  unfold joinpath. intros H. apply append_inj_l in H. now inversion H.
Qed.

Section ReachableFacts.

Variable yaml_text : Document -> string.
Variable config_schema_yaml : Schema.
Variable config_file_schema_yaml : Document -> ValidatedData.
Variable RUN_TIME_INFO : RunTimeInfo.
Variable hostname : string.

Local Abbreviation __init__ :=
  (__init__ yaml_text config_schema_yaml config_file_schema_yaml
            RUN_TIME_INFO hostname).

(** What [_get_main_config_file] returns is in the directory afterwards,
    under the name the returned path ends with, and both loads agree. *)
Lemma get_main_config_file_loaded cfg_dir d dat rt path contents d' :
  _get_main_config_file yaml_text hostname cfg_dir d
  = ((dat, rt, path, contents), d') ->
  dat = rt
  /\ exists name, (name = "config.yaml" \/ name = "config.yml")
                  /\ path = joinpath cfg_dir name
                  /\ dict_get name (files d') = Some rt
                  /\ (In (name, rt) (files d) \/ rt = DEFAULT_CONFIG hostname).
Proof.
  unfold _get_main_config_file.
  set (name := if dict_mem "config.yaml" (files d)
               then "config.yaml" else "config.yml").
  assert (Hn : name = "config.yaml" \/ name = "config.yml")
    by (unfold name; destruct (dict_mem "config.yaml" (files d)); auto).
  destruct (dict_mem name (files d)) eqn:Hm.
  - unfold dict_mem in Hm.
    destruct (dict_get name (files d)) as [doc|] eqn:Hg; [|discriminate].
    intros H. inversion H. subst. split; auto.
    exists name. repeat split; auto. left. now apply dict_get_In.
  - simpl. rewrite dict_get_set_same.
    intros H. inversion H. subst. split; auto.
    exists name. repeat split; auto. simpl. apply dict_get_set_same.
Qed.

Lemma init_invariant config_schema cfg_dir d l d' :
  (forall f doc, In (f, doc) (files d) -> NoDup (map fst (configs doc))) ->
  __init__ config_schema cfg_dir d = inr (l, d') ->
  store_invariant {| loader := l; disk := d'; warnings := [] |}.
Proof.
  intros Hnd. unfold Config.__init__.
  destruct (_get_main_config_file yaml_text hostname cfg_dir d)
    as [[[[dat rt] path] contents] d1] eqn:E.
  apply get_main_config_file_loaded in E.
  destruct E as [-> [name [Hname [-> [Hfile Hsrc]]]]].
  destruct (negb (is_valid (config_file_schema_yaml rt))); [discriminate|].
  destruct (select_profile RUN_TIME_INFO (configs rt))
    as [e|[[key p]|]] eqn:Hsel; try discriminate.
  match goal with
  | |- context [_validate_configured_data ?x ?y] =>
      destruct (_validate_configured_data x y); [discriminate|]
  end.
  intros H. inversion H. subst l d'. clear H.
  assert (ND : NoDup (map fst (configs rt))).
  { destruct Hsrc as [Hin| ->].
    - eapply Hnd; eauto.
    - simpl. constructor; [easy | constructor]. }
  apply select_profile_In in Hsel.
  apply In_dict_get in Hsel; auto.
  assert (Hc : rt_config key rt = inr (config p))
    by (unfold rt_config, py_getitem; now rewrite Hsel).
  split.
  - exists (config p). split; auto. apply same_mapping_refl.
  - exists rt. simpl. split.
    + unfold file_name. simpl.
      destruct Hname as [-> | ->].
      * now rewrite String.eqb_refl.
      * destruct (String.eqb _ _) eqn:Eq; auto.
        apply String.eqb_eq in Eq. apply joinpath_inj in Eq. discriminate.
    + eapply same_document_refl. exact Hc.
Qed.

(** The loader [__init__] returns starts aligned: the mapping is the very
    subtree of the document it was taken from. *)
Lemma init_aligned config_schema cfg_dir d l d' :
  (forall f doc, In (f, doc) (files d) -> NoDup (map fst (configs doc))) ->
  __init__ config_schema cfg_dir d = inr (l, d') ->
  aligned l.
Proof.
  intros Hnd. unfold Config.__init__.
  destruct (_get_main_config_file yaml_text hostname cfg_dir d)
    as [[[[dat rt] path] contents] d1] eqn:E.
  apply get_main_config_file_loaded in E.
  destruct E as [-> [name [Hname [-> [Hfile Hsrc]]]]].
  destruct (negb (is_valid (config_file_schema_yaml rt))); [discriminate|].
  destruct (select_profile RUN_TIME_INFO (configs rt))
    as [e|[[key p]|]] eqn:Hsel; try discriminate.
  match goal with
  | |- context [_validate_configured_data ?x ?y] =>
      destruct (_validate_configured_data x y); [discriminate|]
  end.
  intros H. inversion H. subst l d'. clear H.
  assert (ND : NoDup (map fst (configs rt))).
  { destruct Hsrc as [Hin| ->].
    - eapply Hnd; eauto.
    - simpl. constructor; [easy | constructor]. }
  apply select_profile_In in Hsel.
  apply In_dict_get in Hsel; auto.
  unfold aligned, rt_config, py_getitem, _cfg_inv_key. simpl. now rewrite Hsel.
Qed.

End ReachableFacts.

Section AlignedFacts.

Variable json_loads : string -> string + value.
Variable object_hasattr : string -> bool.

Local Abbreviation mutate := (mutate json_loads object_hasattr).
Local Abbreviation plan_of := (plan_of json_loads object_hasattr).
Local Abbreviation reachable_from := (reachable_from json_loads object_hasattr).

Lemma aligned_consistent l : aligned l -> consistent l.
Proof.
  intros H. exists (_configured_data l). split; auto. apply same_mapping_refl.
Qed.

Lemma applied_aligned name new_value is_unset l :
  aligned l -> aligned (applied name new_value is_unset l).
Proof.
  unfold aligned, applied, _cfg_inv_key. simpl. intros H. rewrite H.
  now apply rt_config_with with (c := _configured_data l).
Qed.

Lemma reinstated_aligned name old_value l :
  aligned l -> aligned (reinstated name old_value l).
Proof.
  unfold aligned, reinstated, _cfg_inv_key. simpl. intros H. rewrite H.
  now apply rt_config_with with (c := _configured_data l).
Qed.

Lemma modify_keeps_aligned name new_value is_unset w :
  aligned (loader w) ->
  aligned (loader (snd (_modify_if_valid name new_value is_unset w))).
Proof.
  intros Ha.
  destruct (dict_get name (_configured_data (loader w))) as [old_value|] eqn:Hg.
  - assert (Hm : is_unset = true ->
                 dict_mem name (_configured_data (loader w)) = true)
      by (intros _; unfold dict_mem; now rewrite Hg).
    rewrite (modify_present name new_value is_unset old_value
               (_configured_data (loader w)) w Ha Hg Hm).
    destruct (_validate_configured_data (loader w)
                (change name new_value is_unset (_configured_data (loader w))));
      [assumption|].
    pose proof (applied_aligned name new_value is_unset _ Ha) as H1.
    pose proof (reinstated_aligned name old_value _ H1) as H2.
    destruct (fault (disk w)); assumption.
  - now rewrite modify_absent.
Qed.

Lemma mutate_keeps_aligned m w :
  aligned (loader w) -> aligned (loader (snd (mutate m w))).
Proof.
  intros H. rewrite mutate_plan.
  destruct (plan_of m (loader w)) as [e|x|new_value is_unset]; simpl; auto.
  now apply modify_keeps_aligned.
Qed.

(** From a world where the in-memory mapping is the round-trip subtree and
    the file holds the round-trip document, every world the process gets to,
    through reads, mutations that succeed or fail, and changes of the
    environment, is such a world again: the mapping and the subtree stay
    equal key for key and in order, and the file holds the round-trip
    document up to the order of the keys of the active mapping. *)
Theorem store_invariant_preserved w0 w :
  aligned (loader w0) -> persisted w0 -> reachable_from w0 w ->
  aligned (loader w) /\ persisted w.
Proof.
  intros Ha Hp. induction 1 as [|name w Hr IH|m w Hr IH|f w Hr IH].
  - now split.
  - now rewrite get_world.
  - destruct IH as [IHa IHp]. split.
    + now apply mutate_keeps_aligned.
    + apply (mutate_keeps_invariant json_loads object_hasattr m w).
      split; auto. now apply aligned_consistent.
  - destruct IH as [IHa [doc [Hd Hs]]]. split; auto. exists doc. auto.
Qed.




End AlignedFacts.

(** ** The list mutators *)

Lemma py_eq_list_length xs ys :
  py_eq (VList xs) (VList ys) = true -> List.length xs = List.length ys.
Proof.
  simpl. revert ys. induction xs as [|x xs IH]; intros [|y ys]; simpl;
    try discriminate; auto.
  intros H. apply andb_true_iff in H. destruct H as [_ H]. f_equal. auto.
Qed.

Lemma py_eq_append_false old v : py_eq (VList old) (VList (old ++ [v])) = false.
Proof.
  destruct (py_eq (VList old) (VList (old ++ [v]))) eqn:E; auto.
  apply py_eq_list_length in E. rewrite length_app in E. simpl in E. lia.
Qed.

Lemma py_eq_prepend_false old v : py_eq (VList old) (VList ([v] ++ old)) = false.
Proof.
  destruct (py_eq (VList old) (VList ([v] ++ old))) eqn:E; auto.
  apply py_eq_list_length in E. simpl in E. lia.
Qed.

Section MutatorFacts.

Variable json_loads : string -> string + value.
Variable object_hasattr : string -> bool.

Local Abbreviation get := (get object_hasattr).
Local Abbreviation getattr := (getattr object_hasattr).
Local Abbreviation _prepare_modify := (_prepare_modify json_loads object_hasattr).
Local Abbreviation set_value := (set_value json_loads object_hasattr).
Local Abbreviation append_value := (append_value json_loads object_hasattr).
Local Abbreviation prepend_value := (prepend_value json_loads object_hasattr).
Local Abbreviation pop_value := (pop_value json_loads object_hasattr).

(** What a successful [_prepare_modify] tells: the name is configurable,
    the old value is what [get] returns, and the world is untouched. *)
Lemma prepare_ok name v is_json old_value new_value w :
  fst (_prepare_modify name v is_json w) = inr (old_value, new_value) ->
  _prepare_modify name v is_json w = (inr (old_value, new_value), w)
  /\ mem name (_configurable_keys (loader w)) = true
  /\ getattr (loader w) name = inr old_value.
Proof.
  intros H.
  pose proof (prepare_world json_loads object_hasattr name v is_json w) as Hw.
  destruct (_prepare_modify name v is_json w) as [r w'] eqn:E.
  simpl in *. subst. split; auto.
  revert E. unfold Config._prepare_modify, bind, self. simpl.
  destruct (mem name (_configurable_keys (loader w))); simpl;
    [|discriminate].
  destruct is_json; simpl.
  - destruct v; simpl; try discriminate.
    destruct (json_loads s); simpl; try discriminate.
    rewrite get_result. destruct (getattr (loader w) name); simpl;
      intros E; inversion E; auto.
  - rewrite get_result. destruct (getattr (loader w) name); simpl;
      intros E; inversion E; auto.
Qed.

(** With [is_json] off, [set_value] hands its argument to [_set_value]
    together with the current value. *)
Lemma set_value_plain name x old_value w :
  mem name (_configurable_keys (loader w)) = true ->
  getattr (loader w) name = inr old_value ->
  set_value name x false w = _set_value name old_value x w.
Proof.
  intros Hk Hg.
  unfold Config.set_value, Config._prepare_modify, bind, self. simpl.
  rewrite Hk. simpl. rewrite get_result, Hg. reflexivity.
Qed.

(** [_set_value] to a different value on a healthy directory, when the key
    is in the mapping and the schemas accept the candidate: the new value
    is returned, and it is what the mapping, the round-trip data and the
    file hold afterwards. *)
Lemma set_value_applies name old_value current new_value w :
  consistent (loader w) ->
  py_eq old_value new_value = false ->
  dict_get name (_configured_data (loader w)) = Some current ->
  _validate_configured_data (loader w)
    (dict_set name new_value (_configured_data (loader w))) = inr tt ->
  fault (disk w) = NoFault ->
  let w' := snd (_set_value name old_value new_value w) in
  fst (_set_value name old_value new_value w) = inr new_value
  /\ dict_get name (_configured_data (loader w')) = Some new_value
  /\ (exists c, rt_config (_cfg_inv_key (loader w)) (_cfg_file_dat_rt (loader w'))
                = inr c /\ dict_get name c = Some new_value)
  /\ dict_get (file_name (loader w)) (files (disk w'))
     = Some (_cfg_file_dat_rt (loader w')).
Proof.
  intros [c [Hc Hs]] He Hg Hv Hf. unfold _set_value. rewrite He.
  rewrite (modify_present name new_value false current c w Hc Hg)
    by discriminate.
  unfold change. rewrite Hv, Hf. simpl. repeat split.
  - apply dict_get_set_same.
  - unfold _cfg_inv_key in *. simpl. rewrite Hc.
    exists (dict_set name new_value c). split.
    + now apply rt_config_with with (c := c).
    + apply dict_get_set_same.
  - unfold written. apply dict_get_set_same.
Qed.

(** C7: with [cur] the current value and [new] the value to add, as
    [_prepare_modify] returns them: on a list [old], [append_value] is
    [set_value] of [old ++ [new]] and [prepend_value] is [set_value] of
    [[new] ++ old]; where the key is in the mapping, the schemas accept and
    the directory is healthy, the lengthened list is returned and stored in
    the mapping, the round-trip subtree and the file.  On any other current
    value both raise [ConfigChangeTypeInvalidError] and leave the world as
    it was. *)
Theorem append_prepend_value name v is_json cur new w :
  fst (_prepare_modify name v is_json w) = inr (cur, new) ->
  match cur with
  | VList old =>
      append_value name v is_json w
      = set_value name (VList (old ++ [new])) false w
      /\ prepend_value name v is_json w
         = set_value name (VList ([new] ++ old)) false w
      /\ (consistent (loader w) ->
          dict_get name (_configured_data (loader w)) = Some cur ->
          fault (disk w) = NoFault ->
          (_validate_configured_data (loader w)
             (dict_set name (VList (old ++ [new]))
                (_configured_data (loader w))) = inr tt ->
           stored name (VList (old ++ [new])) w (append_value name v is_json w))
          /\ (_validate_configured_data (loader w)
                (dict_set name (VList ([new] ++ old))
                   (_configured_data (loader w))) = inr tt ->
              stored name (VList ([new] ++ old)) w
                (prepend_value name v is_json w)))
  | _ =>
      append_value name v is_json w
      = (inl (ConfigChangeTypeInvalidError name (type_name cur)), w)
      /\ prepend_value name v is_json w
         = (inl (ConfigChangeTypeInvalidError name (type_name cur)), w)
  end.
Proof.
  intros H. apply prepare_ok in H. destruct H as [Hp [Hk Hg]].
  assert (Ha : append_value name v is_json w
               = match cur with
                 | VList old => _set_value name cur (VList (old ++ [new])) w
                 | _ => (inl (ConfigChangeTypeInvalidError name (type_name cur)), w)
                 end)
    by (unfold Config.append_value, bind; rewrite Hp; now destruct cur).
  assert (Hb : prepend_value name v is_json w
               = match cur with
                 | VList old => _set_value name cur (VList ([new] ++ old)) w
                 | _ => (inl (ConfigChangeTypeInvalidError name (type_name cur)), w)
                 end)
    by (unfold Config.prepend_value, bind; rewrite Hp; now destruct cur).
  destruct cur as [| | | |old| |]; try (split; assumption).
  rewrite Ha, Hb. rewrite !(set_value_plain name _ (VList old) w Hk Hg).
  split; [reflexivity|]. split; [reflexivity|].
  intros Hc Hd Hf. split; intros Hv; unfold stored.
  - apply (set_value_applies name (VList old) (VList old)); auto.
    apply py_eq_append_false.
  - apply (set_value_applies name (VList old) (VList old)); auto.
    apply py_eq_prepend_false.
Qed.

End MutatorFacts.

(** ** Keys that are not in the mapping, mappings that are popped, names
    that are attributes *)

Section EdgeFacts.

Variable json_loads : string -> string + value.
Variable object_hasattr : string -> bool.

Local Abbreviation get := (get object_hasattr).
Local Abbreviation getattr := (getattr object_hasattr).
Local Abbreviation has_ordinary_attribute := (has_ordinary_attribute object_hasattr).
Local Abbreviation _prepare_modify := (_prepare_modify json_loads object_hasattr).
Local Abbreviation set_value := (set_value json_loads object_hasattr).
Local Abbreviation pop_value := (pop_value json_loads object_hasattr).

(** A name ordinary lookup finds is answered with the attribute, whatever
    the allow-list says. *)
Lemma get_ordinary_attribute name w :
  has_ordinary_attribute name = true ->
  get name w = (inr (VObject name), w).
Proof.
  intros H. rewrite get_result. unfold Config.getattr. now rewrite H.
Qed.

(** A configurable key that is not in the mapping reads as [None]. *)
Lemma get_absent_is_None name w :
  has_ordinary_attribute name = false ->
  mem name meta_keys = false ->
  mem name (_configurable_keys (loader w)) = true ->
  dict_get name (_configured_data (loader w)) = None ->
  get name w = (inr VNone, w).
Proof.
  intros Ha Hm Hk Hg. rewrite get_result.
  unfold Config.getattr, __getattr__. rewrite Ha.
  apply meta_data_get_keys with (m := _meta_data (loader w)) in Hm.
  now rewrite Hm, Hk, Hg.
Qed.

(** [set_value] of anything but [None] on such a key raises [KeyError]:
    [_modify_if_valid] subscripts the copy of the mapping with it. *)
Lemma set_value_absent_key name v w :
  has_ordinary_attribute name = false ->
  mem name meta_keys = false ->
  mem name (_configurable_keys (loader w)) = true ->
  dict_get name (_configured_data (loader w)) = None ->
  py_eq VNone v = false ->
  set_value name v false w = (inl (KeyError (VStr name)), w).
Proof.
  intros Ha Hm Hk Hg He.
  assert (Hget : getattr (loader w) name = inr VNone).
  { pose proof (get_absent_is_None name w Ha Hm Hk Hg) as H.
    rewrite get_result in H. now inversion H. }
  rewrite (set_value_plain json_loads object_hasattr name v VNone w Hk Hget).
  unfold _set_value. rewrite He. now apply modify_absent.
Qed.

(** [pop_value] on a key bound to a mapping: [dict.pop(index)] raises
    [KeyError], which no handler of [pop_value] catches. *)
Lemma pop_value_mapping name index d w :
  mem name (_configurable_keys (loader w)) = true ->
  getattr (loader w) name = inr (VDict d) ->
  pop_value name index w = (inl (KeyError (VInt index)), w).
Proof.
  intros Hk Hg.
  unfold Config.pop_value, Config._prepare_modify, bind, self. simpl.
  rewrite Hk. simpl. rewrite get_result, Hg. reflexivity.
Qed.

End EdgeFacts.

(** C3 (the code at the failing input): after [unset_value] removed
    [log_directory], the key is still configurable, and
    [set_value("log_directory", "out", False)] raises [KeyError] and changes
    nothing, where the candidate should have been validated and applied. *)
Theorem set_value_absent_key_raises_KeyError :
  snd (unset_value Example.json_loads Example.object_hasattr "log_directory"
         (Example.world NoFault)) = Example.world_unset
  /\ mem "log_directory" (_configurable_keys (loader Example.world_unset)) = true
  /\ dict_get "log_directory" (_configured_data (loader Example.world_unset)) = None
  /\ set_value Example.json_loads Example.object_hasattr
       "log_directory" (VStr "out") false Example.world_unset
     = (inl (KeyError (VStr "log_directory")), Example.world_unset).
Proof. repeat split; reflexivity. Qed.

(** C6 (the code at the failing input): [pop_value("options", 0)] on a key
    bound to the mapping [{"a": 1}] raises [KeyError], not
    [ConfigChangeTypeInvalidError]. *)
Theorem pop_value_on_mapping_raises_KeyError :
  pop_value Example.json_loads Example.object_hasattr "options" 0
    (Example.world_with [("options", VDict [("a", VInt 1)])])
  = (inl (KeyError (VInt 0)),
     Example.world_with [("options", VDict [("a", VInt 1)])]).
Proof. reflexivity. Qed.

(** C10 (the code at the failing input): [get_configurable] is neither a
    meta-data key nor a configurable key, and [get("get_configurable")]
    returns the bound method instead of raising [ConfigUnknownItemError]. *)
Theorem get_returns_ordinary_attribute :
  mem "get_configurable" meta_keys = false
  /\ mem "get_configurable" (_configurable_keys (loader (Example.world NoFault)))
     = false
  /\ get Example.object_hasattr "get_configurable" (Example.world NoFault)
     = (inr (VObject "get_configurable"), Example.world NoFault).
Proof. repeat split; reflexivity. Qed.

(** C4 (counterexample): [set_value] on a name outside the allow-list does
    not raise the error [get] raises. *)
Lemma set_value_unknown_not_ConfigUnknownItemError :
  mem "no_such_item" (_configurable_keys (loader (Example.world NoFault))) = false
  /\ fst (set_value Example.json_loads Example.object_hasattr
            "no_such_item" (VStr "x") false (Example.world NoFault))
     <> inl (ConfigUnknownItemError "no_such_item").
Proof. split; [reflexivity | discriminate]. Qed.

(** ** Directory resolution *)

Section ResolveDirFacts.

Import ResolveDir.

Variable parent : string -> string.
Variable expanduser : string -> string.
Variable absolute : string -> string.

Lemma mkdir_creates p fs :
  dict_mem p fs = false -> is_dir (parent p) fs = true ->
  mkdir parent p fs = inr (dict_set p Dir fs).
Proof.
  intros Hm Hp. unfold mkdir, is_dir in *. rewrite Hm.
  now destruct (dict_get (parent p) fs) as [[|]|].
Qed.

(** Where resolution succeeds: the directory is the explicit argument when it is a
    [Path] or a non-empty string, else the value of [HPCFLOW_CONFIG_DIR]
    with the home directory expanded when the variable is set, else
    [~/.hpcflow] expanded; an existing directory is used as it is, and a
    missing one is created when nothing has its name and its parent is a
    directory. *)
Theorem resolve_config_dir_creates config_dir env fs :
  let dir := chosen_dir expanduser config_dir env in
  is_dir dir fs = true
  \/ (dict_mem dir fs = false /\ is_dir (parent dir) fs = true) ->
  (match config_dir with
   | ArgPath p => dir = p
   | ArgStr s => s <> "" -> dir = s
   | ArgNone => True
   end)
  /\ (truthy config_dir = false ->
      dir = expanduser (match dict_get CONFIG_DIR_ENV_VAR env with
                        | Some v => v
                        | None => "~/.hpcflow"
                        end))
  /\ exists fs',
      _resolve_config_dir parent expanduser absolute config_dir env fs
      = inr (absolute dir, fs')
      /\ is_dir dir fs' = true
      /\ (is_dir dir fs = true -> fs' = fs).
Proof.
  intros dir H. split; [|split].
  - unfold dir, chosen_dir. destruct config_dir as [|s|p]; simpl; auto.
    intros Hs. apply String.eqb_neq in Hs. now rewrite Hs.
  - intros Ht. unfold dir, chosen_dir. now rewrite Ht.
  - unfold _resolve_config_dir. fold dir.
    destruct H as [H|[Hm Hp]].
    + rewrite H. simpl. exists fs. auto.
    + assert (Hd : is_dir dir fs = false)
        by (unfold is_dir, dict_mem in *; now destruct (dict_get dir fs)).
      rewrite Hd. simpl. rewrite mkdir_creates by assumption.
      exists (dict_set dir Dir fs). repeat split.
      * unfold is_dir. now rewrite dict_get_set_same.
      * congruence.
Qed.

End ResolveDirFacts.

(** C9 (the code at the failing input): [/srv/cfg/hpcflow] is asked for and
    [/srv/cfg] does not exist; [mkdir], called without [parents=True], raises
    [FileNotFoundError], and the directory that the docstring says will be
    created is not. *)
Lemma resolve_config_dir_missing_parent :
  ResolveDir._resolve_config_dir Example.parent Example.expanduser
    Example.absolute (ResolveDir.ArgStr "/srv/cfg/hpcflow") []
    Example.file_system
  = inl (FileNotFoundError "/srv/cfg/hpcflow")
  /\ ~ resolves_and_creates Example.parent Example.expanduser Example.absolute
         (ResolveDir.ArgStr "/srv/cfg/hpcflow") [] Example.file_system.
Proof.
  split; [reflexivity|]. intros [fs' [H _]]. discriminate H.
Qed.

(** ** The statements at concrete inputs *)

Lemma example_consistent f : consistent (loader (Example.world f)).
Proof.
  eexists. split; [reflexivity|]. intros k. reflexivity.
Defined.

Lemma failed_write_reverts_witness :
  same_store (Example.world (FailWriteTmp "Permission denied"))
    (snd (mutate Example.json_loads Example.object_hasattr
            (UnsetValue "log_directory")
            (Example.world (FailWriteTmp "Permission denied"))))
  /\ fst (mutate Example.json_loads Example.object_hasattr
            (UnsetValue "log_directory")
            (Example.world (FailWriteTmp "Permission denied")))
     = inl (ConfigChangeFileUpdateError "log_directory"
              (OSError "Permission denied")).
Proof.
  destruct (failed_write_reverts Example.json_loads Example.object_hasattr
              (UnsetValue "log_directory")
              (Example.world (FailWriteTmp "Permission denied"))
              "Permission denied"
              (example_consistent _) (or_introl eq_refl)) as [H1 [H2 H3]].
  split; [exact H1 | reflexivity].
Defined.

Lemma unknown_name_rejected_witness :
  set_value Example.json_loads Example.object_hasattr "no_such_item" (VStr "x")
    false (Example.world NoFault)
  = (inl (ConfigChangeInvalidError "no_such_item"), Example.world NoFault)
  /\ get Example.object_hasattr "no_such_item" (Example.world NoFault)
     = (inl (ConfigUnknownItemError "no_such_item"), Example.world NoFault).
Proof.
  destruct (unknown_name_rejected Example.json_loads Example.object_hasattr
              "no_such_item" (VStr "x") false (Example.world NoFault) eq_refl)
    as [H1 [H2 H3]].
  split; [exact H1 | exact (H3 eq_refl eq_refl)].
Defined.

Lemma set_value_same_is_noop_witness :
  set_value Example.json_loads Example.object_hasattr "log_directory"
    (VStr "logs") false (Example.world NoFault)
  = (inr VNone,
     warned (AlreadySet "log_directory" (VStr "logs")) (Example.world NoFault)).
Proof.
  exact (proj1 (set_value_same_is_noop Example.json_loads Example.object_hasattr
                  "log_directory" (VStr "logs") false (VStr "logs") (VStr "logs")
                  (Example.world NoFault) eq_refl eq_refl eq_refl)).
Defined.

Lemma example_sources_consistent : consistent (loader Example.world_sources).
Proof.
  eexists. split; [reflexivity|]. intros k. reflexivity.
Defined.

Lemma append_prepend_value_witness :
  stored "environment_sources"
    (VList [VStr "a.yaml"; VStr "b.yaml"; VStr "c.yaml"]) Example.world_sources
    (append_value Example.json_loads Example.object_hasattr
       "environment_sources" (VStr "c.yaml") false Example.world_sources)
  /\ stored "environment_sources"
       (VList [VStr "c.yaml"; VStr "a.yaml"; VStr "b.yaml"]) Example.world_sources
       (prepend_value Example.json_loads Example.object_hasattr
          "environment_sources" (VStr "c.yaml") false Example.world_sources)
  /\ append_value Example.json_loads Example.object_hasattr
       "log_directory" (VStr "c.yaml") false Example.world_sources
     = (inl (ConfigChangeTypeInvalidError "log_directory" "str"),
        Example.world_sources)
  /\ prepend_value Example.json_loads Example.object_hasattr
       "log_directory" (VStr "c.yaml") false Example.world_sources
     = (inl (ConfigChangeTypeInvalidError "log_directory" "str"),
        Example.world_sources).
Proof.
  pose proof (append_prepend_value Example.json_loads Example.object_hasattr
                "environment_sources" (VStr "c.yaml") false
                (VList Example.sources) (VStr "c.yaml") Example.world_sources
                eq_refl) as H.
  cbv beta iota in H. destruct H as [_ [_ H]].
  destruct (H example_sources_consistent eq_refl eq_refl) as [Ha Hb].
  pose proof (append_prepend_value Example.json_loads Example.object_hasattr
                "log_directory" (VStr "c.yaml") false
                (VStr "logs") (VStr "c.yaml") Example.world_sources
                eq_refl) as [Hc Hd].
  split; [exact (Ha eq_refl)|].
  split; [exact (Hb eq_refl)|].
  split; [exact Hc | exact Hd].
Defined.

Lemma resolve_config_dir_creates_witness :
  exists fs',
    ResolveDir._resolve_config_dir Example.parent Example.expanduser
      Example.absolute ResolveDir.ArgNone [] Example.file_system
    = inr ("/home/u/.hpcflow", fs')
    /\ ResolveDir.is_dir "/home/u/.hpcflow" fs' = true.
Proof.
  destruct (resolve_config_dir_creates Example.parent Example.expanduser
              Example.absolute ResolveDir.ArgNone [] Example.file_system
              (or_intror (conj eq_refl eq_refl))) as [_ [_ [fs' [H1 [H2 _]]]]].
  exists fs'. split; [exact H1 | exact H2].
Defined.

(** * More of the loader *)

(** ** Validation against the schemas *)

(** The data passes exactly when every schema accepts it. *)
Theorem validate_with_all schemas data :
  validate_with schemas data = inr tt
  <-> forall s, In s schemas -> is_valid (validate s data) = true.
Proof.
  induction schemas as [|s rest IH]; simpl.
  - split; [intros _ s [] | reflexivity].
  - destruct (is_valid (validate s data)) eqn:E; simpl.
    + rewrite IH. split.
      * intros H s' [<-|Hin]; auto.
      * intros H s' Hin. apply H. now right.
    + split; [discriminate|]. intros H.
      specialize (H s (or_introl eq_refl)). congruence.
Qed.

(** The error carries the failure text of the first schema that rejects the
    data; later schemas are not consulted. *)
Theorem validate_with_first_failure accepted s rest data :
  (forall a, In a accepted -> is_valid (validate a data) = true) ->
  is_valid (validate s data) = false ->
  validate_with (accepted ++ s :: rest) data
  = inl (ConfigValidationError (get_failures_string (validate s data))).
Proof.
  intros Ha Hs. induction accepted as [|a accepted IH]; simpl.
  - now rewrite Hs.
  - rewrite (Ha a (or_introl eq_refl)). simpl. apply IH.
    intros a' Hin. apply Ha. now right.
Qed.

(** A key is configurable exactly when some schema has a rule with an empty
    path whose condition is [allowed_keys] and lists the key. *)
Theorem schema_keys_spec cfg_schemas k :
  In k (schema_keys cfg_schemas)
  <-> exists s r, In s cfg_schemas /\ In r (rules s)
                  /\ rule_path r = [] /\ callable_name r = "allowed_keys"
                  /\ In k (callable_args r).
Proof.
  unfold schema_keys. rewrite in_flat_map. split.
  - intros [s [Hs Hk]]. apply in_flat_map in Hk. destruct Hk as [r [Hr Hk]].
    unfold rule_keys in Hk.
    destruct (rule_path r) eqn:Ep; [|destruct Hk].
    destruct (String.eqb (callable_name r) "allowed_keys") eqn:En; [|destruct Hk].
    apply String.eqb_eq in En. exists s, r. auto.
  - intros [s [r [Hs [Hr [Hp [Hn Hk]]]]]]. exists s. split; auto.
    apply in_flat_map. exists r. split; auto.
    unfold rule_keys. rewrite Hp, Hn. simpl. exact Hk.
Qed.

(** ** Selection: attributes the run-time info does not have *)

(** A [match] key that is not an attribute of the run-time info raises
    [AttributeError] as soon as the loop reaches it: the profile is not
    skipped, and no later profile is tried. *)
Theorem select_profile_unknown_attribute rti n p ps before k v after :
  match_ (invocation p) = (before ++ (k, v) :: after)%list ->
  (forall k' v', In (k', v') before ->
                 exists a, dict_get k' rti = Some a /\ py_eq a v' = true) ->
  dict_get k rti = None ->
  select_profile rti ((n, p) :: ps) = inl (AttributeError k).
Proof.
  intros Hm Hb Hk.
  assert (H : match_loop rti (match_ (invocation p)) = inl (AttributeError k)).
  { rewrite Hm. clear Hm. induction before as [|[k' v'] before IH]; simpl.
    - unfold getattr_rti. now rewrite Hk.
    - destruct (Hb k' v' (or_introl eq_refl)) as [a [Ha He]].
      unfold getattr_rti. rewrite Ha, He. simpl. apply IH.
      intros k2 v2 Hin. apply Hb. now right. }
  unfold select_profile. simpl. now rewrite H.
Qed.

(** The profile the loops select matches the run-time info. *)
Lemma match_loop_true rti m :
  match_loop rti m = inr true ->
  forallb (fun kv => match dict_get (fst kv) rti with
                     | Some a => py_eq a (snd kv)
                     | None => false
                     end) m = true.
Proof.
  induction m as [|[k v] m IH]; simpl; auto.
  unfold getattr_rti. destruct (dict_get k rti) as [a|]; [|discriminate].
  destruct (py_eq a v); simpl; [auto | discriminate].
Qed.

Lemma profile_loop_matches rti ps b x b' :
  profile_loop rti ps b = inr (Some x, b') -> profile_matches rti (snd x) = true.
Proof.
  revert b. induction ps as [|[n p] ps IH]; intros b; simpl.
  - discriminate.
  - destruct (match_loop rti (match_ (invocation p))) as [e|[|]] eqn:E;
      try discriminate.
    + intros H. inversion H. simpl. now apply match_loop_true.
    + eauto.
Qed.

Lemma select_profile_matches rti ps x :
  select_profile rti ps = inr (Some x) -> profile_matches rti (snd x) = true.
Proof.
  unfold select_profile.
  destruct (profile_loop rti ps None) as [e|[sel [[|]|]]] eqn:E;
    try discriminate.
  intros H. inversion H. subst sel. eapply profile_loop_matches; eauto.
Qed.

(** Whatever selection returns is a profile of the document, and it matches
    the run-time info. *)
Theorem select_profile_sound rti ps x :
  select_profile rti ps = inr (Some x) ->
  In x ps /\ profile_matches rti (snd x) = true.
Proof.
  intros H. split.
  - now apply select_profile_In in H.
  - now apply select_profile_matches in H.
Qed.

(** ** Loading the file and building the loader *)

Section InitFacts.

Variable yaml_text : Document -> string.
Variable config_schema_yaml : Schema.
Variable config_file_schema_yaml : Document -> ValidatedData.
Variable RUN_TIME_INFO : RunTimeInfo.
Variable hostname : string.

Local Abbreviation _get_main_config_file :=
  (_get_main_config_file yaml_text hostname).
Local Abbreviation __init__ :=
  (__init__ yaml_text config_schema_yaml config_file_schema_yaml
            RUN_TIME_INFO hostname).

Lemma load_existing cfg_dir d doc :
  (dict_get "config.yaml" (files d) = Some doc ->
   _get_main_config_file cfg_dir d
   = ((doc, doc, joinpath cfg_dir "config.yaml", yaml_text doc), d))
  /\ (dict_get "config.yaml" (files d) = None ->
      dict_get "config.yml" (files d) = Some doc ->
      _get_main_config_file cfg_dir d
      = ((doc, doc, joinpath cfg_dir "config.yml", yaml_text doc), d)).
Proof.
  split.
  - intros H. unfold Config._get_main_config_file, dict_mem.
    repeat (rewrite ?H; simpl). reflexivity.
  - intros H1 H2. unfold Config._get_main_config_file, dict_mem.
    repeat (rewrite ?H1, ?H2; simpl). reflexivity.
Qed.

Lemma load_generated cfg_dir d :
  dict_get "config.yaml" (files d) = None ->
  dict_get "config.yml" (files d) = None ->
  let doc := DEFAULT_CONFIG hostname in
  _get_main_config_file cfg_dir d
  = ((doc, doc, joinpath cfg_dir "config.yml", yaml_text doc),
     {| files := dict_set "config.yml" doc (files d); fault := fault d |})
  /\ forall f, f <> "config.yml" ->
               dict_get f (dict_set "config.yml" doc (files d))
               = dict_get f (files d).
Proof.
  intros H1 H2 doc. split.
  - unfold Config._get_main_config_file, dict_mem.
    repeat (rewrite ?H1, ?H2, ?dict_get_set_same; simpl). reflexivity.
  - intros f Hf. apply dict_get_set_other. congruence.
Qed.

(** With neither file in the directory the default document is written to
    [config.yml] and loaded; every other file stays. *)
Theorem get_main_config_file_generates cfg_dir d :
  dict_get "config.yaml" (files d) = None ->
  dict_get "config.yml" (files d) = None ->
  let doc := DEFAULT_CONFIG hostname in
  _get_main_config_file cfg_dir d
  = ((doc, doc, joinpath cfg_dir "config.yml", yaml_text doc),
     {| files := dict_set "config.yml" doc (files d); fault := fault d |})
  /\ forall f, f <> "config.yml" ->
               dict_get f (files (snd (_get_main_config_file cfg_dir d)))
               = dict_get f (files d).
Proof.
  intros H1 H2 doc. destruct (load_generated cfg_dir d H1 H2) as [Hg Hf].
  split; [exact Hg|]. intros f Hn. rewrite Hg. simpl. now apply Hf.
Qed.

(** Loading twice gives the same: what the first load generated is what the
    second one reads, and the second one writes nothing. *)
Theorem get_main_config_file_stable cfg_dir d :
  _get_main_config_file cfg_dir (snd (_get_main_config_file cfg_dir d))
  = _get_main_config_file cfg_dir d.
Proof.
  destruct (dict_get "config.yaml" (files d)) as [doc|] eqn:H1.
  - destruct (load_existing cfg_dir d doc) as [H _].
    rewrite (H H1). simpl. now apply H.
  - destruct (dict_get "config.yml" (files d)) as [doc|] eqn:H2.
    + destruct (load_existing cfg_dir d doc) as [_ H].
      rewrite (H H1 H2). simpl. now apply H.
    + destruct (load_generated cfg_dir d H1 H2) as [H _].
      rewrite H. simpl.
      assert (Hy : dict_get "config.yaml"
                     (dict_set "config.yml" (DEFAULT_CONFIG hostname) (files d))
                   = None)
        by (rewrite dict_get_set_other; [assumption | discriminate]).
      unfold Config._get_main_config_file, dict_mem. simpl.
      repeat (rewrite ?Hy, ?dict_get_set_same; simpl). reflexivity.
Qed.

(** What a loader that [__init__] returned satisfies: its keys are the
    allowed keys of the schemas, the loaded document passed the file schema,
    the active profile is a profile of the document and matches the run-time
    info, the mapping is that profile's [config], and the schemas accept
    it. *)
Theorem init_postconditions config_schema cfg_dir d l d' :
  __init__ config_schema cfg_dir d = inr (l, d') ->
  let cfg_schemas := config_schema_yaml ::
                     match config_schema with Some s => [s] | None => [] end in
  _configurable_keys l = schema_keys cfg_schemas
  /\ config_schemas (_meta_data l) = cfg_schemas
  /\ is_valid (config_file_schema_yaml (_cfg_file_dat_rt l)) = true
  /\ (exists p, In (_cfg_inv_key l, p) (configs (_cfg_file_dat_rt l))
                /\ profile_matches RUN_TIME_INFO p = true
                /\ _configured_data l = config p)
  /\ validate_with cfg_schemas (_configured_data l) = inr tt.
Proof.
  unfold Config.__init__.
  destruct (Config._get_main_config_file yaml_text hostname cfg_dir d)
    as [[[[dat rt] path] contents] d1] eqn:E.
  apply get_main_config_file_loaded in E.
  destruct E as [-> _].
  destruct (is_valid (config_file_schema_yaml rt)) eqn:Hv; simpl;
    [|discriminate].
  destruct (select_profile RUN_TIME_INFO (configs rt))
    as [e|[[key p]|]] eqn:Hsel; try discriminate.
  match goal with
  | |- context [_validate_configured_data ?x ?y] =>
      destruct (_validate_configured_data x y) as [e|[]] eqn:Hval;
        [discriminate|]
  end.
  intros H. inversion H. subst l d'. clear H. simpl.
  pose proof (select_profile_In _ _ _ Hsel) as Hin.
  pose proof (select_profile_matches _ _ _ Hsel) as Hm. simpl in Hm.
  repeat split; auto.
  exists p. auto.
Qed.

(** The first start in a directory without a configuration file: when the
    file schema and the configuration schemas accept the defaults, the
    loader comes up on the generated [default] profile, which matches any
    invocation. *)
Theorem init_fresh_directory config_schema cfg_dir d :
  dict_get "config.yaml" (files d) = None ->
  dict_get "config.yml" (files d) = None ->
  is_valid (config_file_schema_yaml (DEFAULT_CONFIG hostname)) = true ->
  validate_with (config_schema_yaml ::
                 match config_schema with Some s => [s] | None => [] end)
    [("log_directory", VStr "logs"); ("environment_sources", VList []);
     ("task_schema_sources", VList [])] = inr tt ->
  exists l,
    __init__ config_schema cfg_dir d
    = inr (l, {| files := dict_set "config.yml" (DEFAULT_CONFIG hostname) (files d);
                 fault := fault d |})
    /\ _cfg_inv_key l = "default"
    /\ _cfg_file_dat_rt l = DEFAULT_CONFIG hostname
    /\ _configured_data l
       = [("log_directory", VStr "logs"); ("environment_sources", VList []);
          ("task_schema_sources", VList [])]
    /\ config_file_path (_meta_data l) = joinpath cfg_dir "config.yml".
Proof.
  intros H1 H2 Hf Hv.
  destruct (load_generated cfg_dir d H1 H2) as [Hg _].
  unfold Config.__init__. rewrite Hg. rewrite Hf. simpl.
  unfold _validate_configured_data. cbn [config_schemas _meta_data].
  rewrite Hv.
  eexists. split; [reflexivity|]. repeat split.
Qed.

End InitFacts.

(** ** Lists and [pop] *)

Lemma remove_nth_firstn_skipn n (l : list value) :
  remove_nth n l = (firstn n l ++ skipn (S n) l)%list.
Proof.
  revert l. induction n as [|n IH]; intros [|x l]; simpl; auto.
  now rewrite IH.
Qed.

Lemma list_pop_cases index (l : list value) :
  let len := Z.of_nat (List.length l) in
  (- len <= index < len ->
   exists i, (i = if index <? 0 then index + len else index)
             /\ list_pop index l
                = inr (firstn (Z.to_nat i) l ++ skipn (S (Z.to_nat i)) l)%list)
  /\ (~ (- len <= index < len) ->
      list_pop index l
      = if fits_ssize_t index then inl IndexError else inl OverflowError).
Proof.
  intros len. unfold list_pop. fold len. split.
  - intros H. eexists. split; [reflexivity|].
    rewrite remove_nth_firstn_skipn.
    destruct (index <? 0) eqn:E.
    + apply Z.ltb_lt in E.
      replace ((0 <=? index + len) && (index + len <? len)) with true; auto.
      symmetry. apply andb_true_iff. split; [apply Z.leb_le | apply Z.ltb_lt]; lia.
    + apply Z.ltb_ge in E.
      replace ((0 <=? index) && (index <? len)) with true; auto.
      symmetry. apply andb_true_iff. split; [apply Z.leb_le | apply Z.ltb_lt]; lia.
  - intros H.
    destruct (index <? 0) eqn:E.
    + apply Z.ltb_lt in E.
      destruct ((0 <=? index + len) && (index + len <? len)) eqn:B; auto.
      apply andb_true_iff in B. destruct B as [B1 B2].
      apply Z.leb_le in B1. apply Z.ltb_lt in B2. lia.
    + apply Z.ltb_ge in E.
      destruct ((0 <=? index) && (index <? len)) eqn:B; auto.
      apply andb_true_iff in B. destruct B as [B1 B2].
      apply Z.leb_le in B1. apply Z.ltb_lt in B2. lia.
Qed.

(** ** More on the mutators *)

Section MoreMutatorFacts.

Variable json_loads : string -> string + value.
Variable object_hasattr : string -> bool.

Local Abbreviation get := (get object_hasattr).
Local Abbreviation getattr := (getattr object_hasattr).
Local Abbreviation has_ordinary_attribute := (has_ordinary_attribute object_hasattr).
Local Abbreviation _prepare_modify := (_prepare_modify json_loads object_hasattr).
Local Abbreviation set_value := (set_value json_loads object_hasattr).
Local Abbreviation unset_value := (unset_value json_loads object_hasattr).
Local Abbreviation append_value := (append_value json_loads object_hasattr).
Local Abbreviation prepend_value := (prepend_value json_loads object_hasattr).
Local Abbreviation pop_value := (pop_value json_loads object_hasattr).
Local Abbreviation mutate := (mutate json_loads object_hasattr).
Local Abbreviation plan_of := (plan_of json_loads object_hasattr).

(** Reading a configurable name never raises. *)
Lemma getattr_configurable l name :
  mem name (_configurable_keys l) = true -> exists o, getattr l name = inr o.
Proof.
  intros H. unfold Config.getattr, __getattr__.
  destruct (Config.has_ordinary_attribute object_hasattr name); eauto.
  destruct (meta_data_get (_meta_data l) name); eauto.
  rewrite H. eauto.
Qed.

Lemma getattr_plain l name :
  has_ordinary_attribute name = false -> mem name meta_keys = false ->
  mem name (_configurable_keys l) = true ->
  getattr l name = inr (match dict_get name (_configured_data l) with
                        | Some v => v
                        | None => VNone
                        end).
Proof.
  intros Ha Hm Hk. unfold Config.getattr, __getattr__. rewrite Ha.
  apply meta_data_get_keys with (m := _meta_data l) in Hm.
  now rewrite Hm, Hk.
Qed.

Lemma prepare_plain name v w :
  mem name (_configurable_keys (loader w)) = true ->
  exists o, getattr (loader w) name = inr o
            /\ _prepare_modify name v false w = (inr (o, v), w).
Proof.
  intros Hk. destruct (getattr_configurable (loader w) name Hk) as [o Ho].
  exists o. split; auto.
  unfold Config._prepare_modify, bind, self. simpl.
  rewrite Hk. simpl. rewrite get_result, Ho. reflexivity.
Qed.

Lemma unset_absent name w :
  mem name (_configurable_keys (loader w)) = true ->
  dict_get name (_configured_data (loader w)) = None ->
  unset_value name w = (inr VNone, warned (AlreadyNotSet name) w).
Proof.
  intros Hk Hg. destruct (prepare_plain name VNone w Hk) as [o [_ Hp]].
  unfold Config.unset_value, bind. rewrite Hp.
  unfold _unset_value, bind, self, dict_mem. simpl. now rewrite Hg.
Qed.

(** [unset_value] on a configurable key that is not in the mapping warns and
    returns [None]; the loader and the directory are not touched. *)
Theorem unset_value_absent_noop name w :
  mem name (_configurable_keys (loader w)) = true ->
  dict_get name (_configured_data (loader w)) = None ->
  unset_value name w = (inr VNone, warned (AlreadyNotSet name) w)
  /\ loader (snd (unset_value name w)) = loader w
  /\ disk (snd (unset_value name w)) = disk w.
Proof.
  intros Hk Hg. rewrite (unset_absent name w Hk Hg). now repeat split.
Qed.

(** [unset_value] on a key of the mapping, schemas accepting, directory
    healthy: it returns [True]; the key leaves the mapping and the round-trip
    subtree, the file is rewritten, [get] reads [None] from then on, and a
    second [unset_value] is the warning-only case. *)
Theorem unset_value_removes name cur w :
  has_ordinary_attribute name = false ->
  mem name meta_keys = false ->
  mem name (_configurable_keys (loader w)) = true ->
  consistent (loader w) ->
  dict_get name (_configured_data (loader w)) = Some cur ->
  _validate_configured_data (loader w)
    (dict_del name (_configured_data (loader w))) = inr tt ->
  fault (disk w) = NoFault ->
  let w' := snd (unset_value name w) in
  fst (unset_value name w) = inr (VBool true)
  /\ dict_get name (_configured_data (loader w')) = None
  /\ (exists c, rt_config (_cfg_inv_key (loader w)) (_cfg_file_dat_rt (loader w'))
                = inr c /\ dict_get name c = None)
  /\ dict_get (file_name (loader w)) (files (disk w'))
     = Some (_cfg_file_dat_rt (loader w'))
  /\ fst (get name w') = inr VNone
  /\ unset_value name w' = (inr VNone, warned (AlreadyNotSet name) w').
Proof.
  intros Ha Hm Hk [c [Hc Hs]] Hg Hv Hf.
  destruct (prepare_plain name VNone w Hk) as [o [_ Hp]].
  assert (Hu : unset_value name w = _modify_if_valid name VNone true w).
  { unfold Config.unset_value, bind. rewrite Hp.
    unfold _unset_value, bind, self, dict_mem. simpl. now rewrite Hg. }
  assert (Hmem : true = true -> dict_mem name c = true)
    by (intros _; unfold dict_mem; now rewrite (Hs name), Hg).
  rewrite Hu.
  rewrite (modify_present name VNone true cur c w Hc Hg Hmem).
  unfold change. rewrite Hv, Hf. cbn [fst snd].
  set (w' := {| loader := applied name VNone true (loader w);
                disk := {| files := written (applied name VNone true (loader w))
                                      (files (disk w));
                           fault := NoFault |};
                warnings := warnings w |}).
  assert (Hd : dict_get name (_configured_data (loader w')) = None)
    by (simpl; apply dict_get_del_same).
  repeat split; auto.
  - unfold w', applied, change, _cfg_inv_key in *. simpl. rewrite Hc.
    exists (dict_del name c). split.
    + now apply rt_config_with with (c := c).
    + apply dict_get_del_same.
  - unfold w', written. simpl. apply dict_get_set_same.
  - rewrite get_result. simpl. rewrite getattr_plain; auto.
    simpl. now rewrite dict_get_del_same.
  - apply unset_absent; auto.
Qed.

(** [set_value] then [get]: a successful [set_value] returns the new value
    and [get] reads it back. *)
Theorem set_value_then_get name cur v w :
  has_ordinary_attribute name = false ->
  mem name meta_keys = false ->
  mem name (_configurable_keys (loader w)) = true ->
  consistent (loader w) ->
  dict_get name (_configured_data (loader w)) = Some cur ->
  py_eq cur v = false ->
  _validate_configured_data (loader w)
    (dict_set name v (_configured_data (loader w))) = inr tt ->
  fault (disk w) = NoFault ->
  fst (set_value name v false w) = inr v
  /\ fst (get name (snd (set_value name v false w))) = inr v.
Proof.
  intros Ha Hm Hk Hcons Hg He Hv Hf.
  assert (Hget : getattr (loader w) name = inr cur)
    by (rewrite getattr_plain; auto; now rewrite Hg).
  rewrite (set_value_plain json_loads object_hasattr name v cur w Hk Hget).
  destruct (set_value_applies name cur cur v w Hcons He Hg Hv Hf)
    as [H1 [H2 _]].
  split; auto.
  rewrite get_result. simpl. rewrite getattr_plain; auto.
  - now rewrite H2.
  - destruct Hcons as [c [Hc Hs]]. unfold _set_value. rewrite He.
    rewrite (modify_present name v false cur c w Hc Hg) by discriminate.
    unfold change. rewrite Hv, Hf. simpl. exact Hk.
Qed.

(** A candidate the schemas reject: [set_value] raises
    [ConfigChangeValidationError] around the validator's error, and the
    world is as before. *)
Theorem set_value_rejected name old_value cur v err w :
  mem name (_configurable_keys (loader w)) = true ->
  getattr (loader w) name = inr old_value ->
  py_eq old_value v = false ->
  dict_get name (_configured_data (loader w)) = Some cur ->
  _validate_configured_data (loader w)
    (dict_set name v (_configured_data (loader w))) = inl err ->
  set_value name v false w = (inl (ConfigChangeValidationError name err), w).
Proof.
  intros Hk Hget He Hg Hv.
  rewrite (set_value_plain json_loads object_hasattr name v old_value w Hk Hget).
  unfold _set_value. rewrite He.
  unfold _modify_if_valid, bind, self, lift, py_getitem, ret, raise. simpl.
  rewrite Hg. simpl. now rewrite Hv.
Qed.

(** A string [json.loads] cannot decode: each of the three mutators that
    take a value raises [ConfigChangeInvalidJSONError] with the string and
    the decoder's message, before looking at the current value. *)
Theorem invalid_json_rejected name s err w :
  mem name (_configurable_keys (loader w)) = true ->
  json_loads s = inl err ->
  set_value name (VStr s) true w
  = (inl (ConfigChangeInvalidJSONError name s err), w)
  /\ append_value name (VStr s) true w
     = (inl (ConfigChangeInvalidJSONError name s err), w)
  /\ prepend_value name (VStr s) true w
     = (inl (ConfigChangeInvalidJSONError name s err), w).
Proof.
  intros Hk Hj.
  assert (Hp : _prepare_modify name (VStr s) true w
               = (inl (ConfigChangeInvalidJSONError name s err), w)).
  { unfold Config._prepare_modify, bind, self, raise. simpl.
    rewrite Hk. simpl. now rewrite Hj. }
  repeat split.
  - unfold Config.set_value, bind. now rewrite Hp.
  - unfold Config.append_value, bind. now rewrite Hp.
  - unfold Config.prepend_value, bind. now rewrite Hp.
Qed.

(** [pop_value] with an index outside [[-len, len)]: when the index fits a
    machine integer the error is [ConfigChangePopIndexError] and reports the
    length of the list and the index; an index beyond that makes [list.pop]
    raise [OverflowError], which [pop_value] does not catch.  The world is as
    before in both cases. *)
Theorem pop_value_out_of_range name old index w :
  mem name (_configurable_keys (loader w)) = true ->
  getattr (loader w) name = inr (VList old) ->
  ~ (- Z.of_nat (List.length old) <= index < Z.of_nat (List.length old)) ->
  (- 2 ^ 63 <= index < 2 ^ 63 ->
   pop_value name index w
   = (inl (ConfigChangePopIndexError name (List.length old) index), w))
  /\ (~ (- 2 ^ 63 <= index < 2 ^ 63) ->
      pop_value name index w = (inl OverflowError, w)).
Proof.
  intros Hk Hg Hi.
  destruct (list_pop_cases index old) as [_ Hn].
  assert (Hp : pop_value name index w
               = match list_pop index old with
                 | inr new => _set_value name (VList old) (VList new) w
                 | inl IndexError =>
                     (inl (ConfigChangePopIndexError name (List.length old) index), w)
                 | inl e => (inl e, w)
                 end).
  { unfold Config.pop_value, Config._prepare_modify, bind, self. simpl.
    rewrite Hk. simpl. rewrite get_result, Hg. simpl.
    destruct (list_pop index old) as [[]|]; reflexivity. }
  rewrite Hp, (Hn Hi). unfold fits_ssize_t, PY_SSIZE_T_MAX.
  split; intros Hb.
  - replace ((- (2 ^ 63 - 1) - 1 <=? index) && (index <=? 2 ^ 63 - 1)) with true;
      auto.
    symmetry. apply andb_true_iff. split; apply Z.leb_le; lia.
  - destruct ((- (2 ^ 63 - 1) - 1 <=? index) && (index <=? 2 ^ 63 - 1)) eqn:B;
      auto.
    apply andb_true_iff in B. destruct B as [B1 B2].
    apply Z.leb_le in B1. apply Z.leb_le in B2. lia.
Qed.

(** [pop_value] with an index in range is [set_value] of the list without
    that element. *)
Theorem pop_value_in_range name old index w :
  mem name (_configurable_keys (loader w)) = true ->
  getattr (loader w) name = inr (VList old) ->
  - Z.of_nat (List.length old) <= index < Z.of_nat (List.length old) ->
  let i := Z.to_nat (if index <? 0
                     then index + Z.of_nat (List.length old) else index) in
  pop_value name index w
  = set_value name (VList (firstn i old ++ skipn (S i) old)) false w.
Proof.
  intros Hk Hg Hi i.
  destruct (list_pop_cases index old) as [Hs _].
  destruct (Hs Hi) as [j [Hj Hp]].
  rewrite (set_value_plain json_loads object_hasattr name _ (VList old) w Hk Hg).
  unfold Config.pop_value, Config._prepare_modify, bind, self. simpl.
  rewrite Hk. simpl. rewrite get_result, Hg. simpl. rewrite Hp.
  subst j. reflexivity.
Qed.

(** [pop_value] on [None], a boolean, an integer or a string raises
    [ConfigChangeTypeInvalidError] with the type of the value. *)
Theorem pop_value_scalar name cur index w :
  mem name (_configurable_keys (loader w)) = true ->
  getattr (loader w) name = inr cur ->
  (forall l, cur <> VList l) -> (forall d, cur <> VDict d) ->
  pop_value name index w
  = (inl (ConfigChangeTypeInvalidError name (type_name cur)), w).
Proof.
  intros Hk Hg Hl Hd.
  unfold Config.pop_value, Config._prepare_modify, bind, self. simpl.
  rewrite Hk. simpl. rewrite get_result, Hg. simpl.
  destruct cur; try reflexivity.
  - now destruct (Hl l).
  - now destruct (Hd d).
Qed.

End MoreMutatorFacts.

(** ** Writing the file, and what a mutation leaves alone *)

(** [_update_config_file], by what the environment does.  A write that goes
    through leaves the round-trip data in the configuration file, no
    temporary file, and every other file as it was.  A refused temporary
    file leaves the directory untouched.  A refused rename leaves the
    configuration file untouched and the temporary file behind. *)
Theorem update_config_file_outcomes w :
  match fault (disk w) with
  | NoFault =>
      fst (_update_config_file w) = inr tt
      /\ loader (snd (_update_config_file w)) = loader w
      /\ dict_get (file_name (loader w)) (files (disk (snd (_update_config_file w))))
         = Some (_cfg_file_dat_rt (loader w))
      /\ dict_get tmp_name (files (disk (snd (_update_config_file w)))) = None
      /\ forall f, f <> file_name (loader w) -> f <> tmp_name ->
                   dict_get f (files (disk (snd (_update_config_file w))))
                   = dict_get f (files (disk w))
  | FailWriteTmp msg => _update_config_file w = (inl (OSError msg), w)
  | FailReplace msg =>
      fst (_update_config_file w) = inl (OSError msg)
      /\ loader (snd (_update_config_file w)) = loader w
      /\ dict_get (file_name (loader w)) (files (disk (snd (_update_config_file w))))
         = dict_get (file_name (loader w)) (files (disk w))
      /\ dict_get tmp_name (files (disk (snd (_update_config_file w))))
         = Some (_cfg_file_dat_rt (loader w))
  end.
Proof.
  pose proof (file_name_not_tmp (loader w)) as Hn.
  unfold _update_config_file, bind, self, the_disk, set_disk, raise. simpl.
  destruct (fault (disk w)) eqn:F; simpl.
  - repeat split.
    + apply dict_get_set_same.
    + rewrite dict_get_set_other by assumption. apply dict_get_del_same.
    + intros f H1 H2.
      rewrite dict_get_set_other by congruence.
      rewrite dict_get_del_other by congruence.
      apply dict_get_set_other. congruence.
  - reflexivity.
  - repeat split.
    + apply dict_get_set_other. congruence.
    + apply dict_get_set_same.
Qed.

Section FrameFacts.

Variable json_loads : string -> string + value.
Variable object_hasattr : string -> bool.

Local Abbreviation mutate := (mutate json_loads object_hasattr).
Local Abbreviation plan_of := (plan_of json_loads object_hasattr).

Lemma rt_with_config_frame key c rt key' :
  key' <> key ->
  dict_get key' (configs (rt_with_config key c rt)) = dict_get key' (configs rt).
Proof.
  intros H. unfold rt_with_config.
  destruct (dict_get key (configs rt)); simpl; auto.
  apply dict_get_set_other. congruence.
Qed.

Lemma rt_with_config_top key c rt :
  machine (rt_with_config key c rt) = machine rt
  /\ defaults (rt_with_config key c rt) = defaults rt.
Proof.
  unfold rt_with_config. destruct (dict_get key (configs rt)); simpl; auto.
Qed.

Lemma change_frame name v u (d : dict) k :
  k <> name -> dict_get k (change name v u d) = dict_get k d.
Proof.
  intros H. destruct u; simpl.
  - apply dict_get_del_other. congruence.
  - apply dict_get_set_other. congruence.
Qed.

(** What no mutation touches, however it ends: the allow-list, the
    meta-data (so the active profile stays the one chosen at start), the
    value of every other key, every other profile of the document, and the
    document's [machine] and [defaults]. *)
Theorem mutate_frame m w :
  consistent (loader w) ->
  let l := loader w in
  let l' := loader (snd (mutate m w)) in
  _configurable_keys l' = _configurable_keys l
  /\ _meta_data l' = _meta_data l
  /\ (forall k, k <> mutation_name m ->
                dict_get k (_configured_data l') = dict_get k (_configured_data l))
  /\ (forall key, key <> _cfg_inv_key l ->
                  dict_get key (configs (_cfg_file_dat_rt l'))
                  = dict_get key (configs (_cfg_file_dat_rt l)))
  /\ machine (_cfg_file_dat_rt l') = machine (_cfg_file_dat_rt l)
  /\ defaults (_cfg_file_dat_rt l') = defaults (_cfg_file_dat_rt l).
Proof.
  intros Hcons l l'. unfold l', l. clear l l'.
  rewrite mutate_plan.
  destruct (plan_of m (loader w)) as [e|x|v u]; simpl; auto.
  { repeat split; auto. }
  { repeat split; auto. }
  pose proof Hcons as [c [Hc Hs]].
  set (name := mutation_name m).
  destruct (dict_get name (_configured_data (loader w))) as [old|] eqn:Hg.
  - assert (Hm : u = true -> dict_mem name c = true)
      by (intros _; unfold dict_mem; now rewrite (Hs name), Hg).
    rewrite (modify_present name v u old c w Hc Hg Hm).
    assert (Hc' : rt_config (_cfg_inv_key (loader w))
                    (rt_with_config (_cfg_inv_key (loader w)) (change name v u c)
                       (_cfg_file_dat_rt (loader w))) = inr (change name v u c))
      by (now apply rt_config_with with (c := c)).
    destruct (_validate_configured_data (loader w)
                (change name v u (_configured_data (loader w))));
      [simpl; repeat split; auto|].
    destruct (fault (disk w)); simpl; unfold reinstated, applied, _cfg_inv_key in *;
      simpl; rewrite Hc; rewrite ?Hc'; repeat split; auto;
      try (intros k Hk);
      rewrite ?rt_with_with;
      try (rewrite rt_with_config_frame by assumption; reflexivity);
      try (rewrite dict_get_set_other by congruence);
      try (apply change_frame; assumption);
      try apply rt_with_config_top.
  - rewrite modify_absent by assumption. simpl. repeat split; auto.
Qed.

End FrameFacts.

(** * Run-time information *)

(** [name.split(".")[0]] is the part of the name before its first dot: it
    has no dot, and the name continues after it with a dot or not at all. *)
Theorem split_head_spec name :
  (forall c, In c (list_ascii_of_string (RunTime.split_head name)) ->
             c <> "."%char)
  /\ exists rest, name = (RunTime.split_head name ++ rest)%string
                  /\ (rest = ""%string \/ exists r, rest = String "."%char r).
Proof.
  induction name as [|c name [IH1 [rest [IH2 IH3]]]]; simpl.
  - split; [intros c []|]. exists ""%string. auto.
  - destruct (Ascii.eqb c ".") eqn:E; simpl.
    + split; [intros c' []|]. apply Ascii.eqb_eq in E. subst c.
      exists (String "."%char name). split; eauto.
    + split.
      * intros c' [<-|Hin]; auto. intros ->. now rewrite Ascii.eqb_refl in E.
      * exists rest. split; auto. now rewrite <- IH2.
Qed.

Section RunTimeFacts.

Variable path_name : string -> string.

Local Abbreviation attributes := (RunTime.attributes path_name).

(** [venv_path] is [sys.prefix] in a virtual environment, else the conda
    prefix in a conda environment, else [None]; the list that the last
    branch of [_set_venv_path] would return never arises. *)
Theorem venv_path_spec sys name version :
  dict_get "venv_path" (attributes sys name version)
  = Some (if in_venv sys then VStr (RunTime.prefix sys)
          else RunTime.opt_str (dict_get "CONDA_PREFIX" (RunTime.environ sys)))
  /\ forall is_venv is_conda_venv sys_prefix conda_prefix,
       RunTime._set_venv_path is_venv is_conda_venv sys_prefix conda_prefix
       = if is_venv then inr sys_prefix
         else if is_conda_venv then inr conda_prefix
         else inl (RunTime.ValueError "Not running in a virtual environment!").
Proof.
  split.
  - unfold RunTime.attributes. fold (in_venv sys).
    destruct (RunTime.frozen sys); simpl;
      destruct (in_venv sys); simpl; auto;
      unfold dict_mem;
      destruct (dict_get "CONDA_PREFIX" (RunTime.environ sys)); reflexivity.
  - intros [|] [|] a b; reflexivity.
Qed.

(** The nested-environment warning is given exactly when the process is in
    a virtual environment and [CONDA_PREFIX] is set. *)
Theorem nested_warning_spec sys name version :
  RunTime.nested_warning (attributes sys name version)
  = in_venv sys && dict_mem "CONDA_PREFIX" (RunTime.environ sys).
Proof.
  unfold RunTime.attributes, RunTime.nested_warning. fold (in_venv sys).
  destruct (RunTime.frozen sys); simpl;
    destruct (in_venv sys); simpl; auto;
    destruct (dict_mem "CONDA_PREFIX" (RunTime.environ sys)); reflexivity.
Qed.

(** In a frozen executable [_get_members] leaves out the virtual-environment
    attributes although [__init__] has set them, so only [is_frozen] and
    [executable_name] are tagged; otherwise [is_frozen], [is_venv] and
    [is_conda_venv] are. *)
Theorem sentry_tags_spec sys name version :
  let self := attributes sys name version in
  dict_mem "is_venv" self = true
  /\ dict_mem "is_venv" (RunTime._get_members self) = negb (RunTime.frozen sys)
  /\ map fst (RunTime.sentry_tags self)
     = if RunTime.frozen sys
       then ["rti.is_frozen"; "rti.executable_name"]
       else ["rti.is_frozen"; "rti.is_venv"; "rti.is_conda_venv"].
Proof.
  unfold RunTime.attributes. destruct (RunTime.frozen sys); simpl; auto.
Qed.

(** A profile that asks for [is_frozen: b] is selected exactly when the
    process is frozen or not as [b] says. *)
Theorem select_on_is_frozen sys name version n p ps b :
  match_ (invocation p) = [("is_frozen", VBool b)] ->
  Bool.eqb (RunTime.frozen sys) b = true ->
  select_profile (attributes sys name version) ((n, p) :: ps)
  = inr (Some (n, p)).
Proof.
  intros Hm Hb. apply Bool.eqb_prop in Hb. subst b.
  unfold select_profile. simpl. rewrite Hm. simpl.
  unfold getattr_rti, RunTime.attributes. simpl.
  destruct (RunTime.frozen sys); reflexivity.
Qed.

End RunTimeFacts.

(** * The API's argument handling *)

(** With one source given: a non-empty JSON string or file name is used; an
    empty JSON string or file name is ignored without a word, and the
    profiles of the directory are parsed instead. *)
Theorem make_workflow_source_single s l :
  Api.make_workflow_source None None (Some s)
  = inr (if String.eqb s "" then Api.FromProfiles None else Api.FromJsonStr s)
  /\ Api.make_workflow_source None (Some s) None
     = inr (if String.eqb s "" then Api.FromProfiles None else Api.FromJsonFile s)
  /\ Api.make_workflow_source (Some l) None None = inr (Api.FromProfiles (Some l))
  /\ Api.make_workflow_source None None None = inr (Api.FromProfiles None).
Proof.
  unfold Api.make_workflow_source. simpl.
  destruct (String.eqb s ""); auto.
Qed.

(** The workflows [get_stats] and [kill] work on: none when the project has
    none (an error, whatever the id); the one asked for when its id is not
    zero and exists; all of them when no id, or the id [0], is given. *)
Theorem select_workflow_ids_spec all_ids workflow_id :
  match Api.select_workflow_ids all_ids workflow_id with
  | inl _ =>
      all_ids = []
      \/ exists i, workflow_id = Some i /\ i <> 0 /\ ~ In i all_ids
  | inr ids =>
      all_ids <> []
      /\ match workflow_id with
         | Some i => if Z.eqb i 0 then ids = all_ids
                     else ids = [i] /\ In i all_ids
         | None => ids = all_ids
         end
  end.
Proof.
  unfold Api.select_workflow_ids.
  destruct all_ids as [|a all_ids]; [now left|].
  destruct workflow_id as [i|]; [|split; [discriminate | reflexivity]].
  destruct (Z.eqb i 0) eqn:E0; simpl; [split; [discriminate | reflexivity]|].
  apply Z.eqb_neq in E0.
  destruct (Z.eqb i a) eqn:Ea; simpl.
  - apply Z.eqb_eq in Ea. subst a. split; [discriminate|]. split; auto.
  - destruct (existsb (Z.eqb i) all_ids) eqn:Ex; simpl.
    + split; [discriminate|]. split; auto. right.
      apply existsb_exists in Ex. destruct Ex as [x [Hx Hi]].
      apply Z.eqb_eq in Hi. now subst x.
    + right. exists i. repeat split; auto.
      intros [H|H].
      * subst a. now rewrite Z.eqb_refl in Ea.
      * assert (existsb (Z.eqb i) all_ids = true)
          by (apply existsb_exists; exists i; split; auto; apply Z.eqb_refl).
        congruence.
Qed.

(** A row of the task table has as many cells as the table has headers, with
    or without the [End] column, and the [End] header stands over the
    [end_time] cell. *)
Theorem task_row_matches_headers task show_task_end row :
  Api.task_row task show_task_end = inr row ->
  List.length row = List.length (Api.task_headers show_task_end)
  /\ (show_task_end = true ->
      nth 5 (Api.task_headers true) ""%string = "End"%string
      /\ exists end_time, dict_get "end_time" task = Some end_time
                          /\ nth 5 row VNone = Api.py_or end_time (VStr "-")).
Proof.
  unfold Api.task_row, py_getitem.
  repeat match goal with
         | |- context [dict_get ?k task] =>
             let E := fresh "E" in
             destruct (dict_get k task) eqn:E; try discriminate
         end;
    destruct show_task_end; try discriminate;
    intros H; inversion H; simpl; split; auto; try discriminate.
  intros _. split; auto. eexists. split; reflexivity.
Qed.

(** * Reading *)

Section ReadFacts.

Variable object_hasattr : string -> bool.

(** [get] on a configurable key that is neither a meta-data key nor an
    attribute of the loader returns the value the mapping holds for it, and
    [None] when the mapping has no such key; the world is not touched. *)
Theorem get_configurable_key name w :
  has_ordinary_attribute object_hasattr name = false ->
  mem name meta_keys = false ->
  mem name (_configurable_keys (loader w)) = true ->
  get object_hasattr name w
  = (inr (match dict_get name (_configured_data (loader w)) with
          | Some v => v
          | None => VNone
          end), w).
Proof.
  intros Ha Hm Hk. rewrite get_result. now rewrite getattr_plain.
Qed.

End ReadFacts.

(** * The further statements at concrete inputs *)

Lemma validate_with_first_failure_witness :
  validate_with ([Example.schema]
                 ++ Example.schema_without_logs :: [Example.schema_never])
    Example.config_of_default
  = inl (ConfigValidationError "log_directory is not allowed").
Proof.
  apply (validate_with_first_failure [Example.schema]
           Example.schema_without_logs [Example.schema_never]
           Example.config_of_default).
  - intros a [<-|[]]. reflexivity.
  - reflexivity.
Defined.

Lemma example_attributes_known :
  attributes_known Example.rti Example.profiles.
Proof.
  intros n p k v [H|[H|[]]] Hin; inversion H; subst p; simpl in Hin.
  - destruct Hin as [Hin|[]]. inversion Hin. reflexivity.
  - destruct Hin.
Defined.

Lemma select_profile_nonempty_witness :
  select_profile Example.rti Example.profiles
  = inr (Some ("default",
               {| invocation := {| environment_setup := VNone; match_ := [] |};
                  config := Example.config_of_default |})).
Proof.
  exact (select_profile_nonempty Example.rti _ _ _ example_attributes_known).
Defined.

Lemma select_profile_unknown_attribute_witness :
  select_profile Example.rti [("cluster", Example.host_profile)]
  = inl (AttributeError "hostname").
Proof.
  apply (select_profile_unknown_attribute Example.rti "cluster"
           Example.host_profile [] [("is_frozen", VBool false)]
           "hostname" (VStr "login1") []).
  - reflexivity.
  - intros k v [H|[]]. inversion H. subst. exists (VBool false). now split.
  - reflexivity.
Defined.

Lemma select_profile_sound_witness :
  In ("default", {| invocation := {| environment_setup := VNone; match_ := [] |};
                    config := Example.config_of_default |}) Example.profiles
  /\ profile_matches Example.rti
       {| invocation := {| environment_setup := VNone; match_ := [] |};
          config := Example.config_of_default |} = true.
Proof.
  exact (select_profile_sound Example.rti Example.profiles _ eq_refl).
Defined.

Lemma get_main_config_file_generates_witness :
  _get_main_config_file Example.yaml_text "host" Example.dir
    {| files := []; fault := NoFault |}
  = ((Example.document, Example.document, joinpath Example.dir "config.yml",
      Example.yaml_text Example.document),
     {| files := [("config.yml", Example.document)]; fault := NoFault |}).
Proof.
  exact (proj1 (get_main_config_file_generates Example.yaml_text "host"
                  Example.dir {| files := []; fault := NoFault |}
                  eq_refl eq_refl)).
Defined.

Lemma init_postconditions_witness :
  _configurable_keys Example.the_loader = schema_keys [Example.schema]
  /\ validate_with [Example.schema] (_configured_data Example.the_loader)
     = inr tt.
Proof.
  destruct (init_postconditions Example.yaml_text Example.schema
              Example.file_schema Example.rti "host" None Example.dir
              {| files := []; fault := NoFault |} Example.the_loader
              {| files := [("config.yml", Example.document)]; fault := NoFault |}
              eq_refl) as [H1 [_ [_ [_ H2]]]].
  split; [exact H1 | exact H2].
Defined.

Lemma init_fresh_directory_witness :
  exists l,
    __init__ Example.yaml_text Example.schema Example.file_schema Example.rti
      "host" None Example.dir {| files := []; fault := NoFault |}
    = inr (l, {| files := [("config.yml", Example.document)]; fault := NoFault |})
    /\ _cfg_inv_key l = "default".
Proof.
  destruct (init_fresh_directory Example.yaml_text Example.schema
              Example.file_schema Example.rti "host" None Example.dir
              {| files := []; fault := NoFault |} eq_refl eq_refl eq_refl eq_refl)
    as [l [H1 [H2 _]]].
  exists l. split; [exact H1 | exact H2].
Defined.

Lemma unset_value_absent_noop_witness :
  unset_value Example.json_loads Example.object_hasattr "log_directory"
    Example.world_unset
  = (inr VNone, warned (AlreadyNotSet "log_directory") Example.world_unset).
Proof.
  exact (proj1 (unset_value_absent_noop Example.json_loads Example.object_hasattr
                  "log_directory" Example.world_unset eq_refl eq_refl)).
Defined.

Lemma unset_value_removes_witness :
  fst (unset_value Example.json_loads Example.object_hasattr "log_directory"
         (Example.world NoFault)) = inr (VBool true)
  /\ fst (get Example.object_hasattr "log_directory"
            (snd (unset_value Example.json_loads Example.object_hasattr
                    "log_directory" (Example.world NoFault)))) = inr VNone.
Proof.
  destruct (unset_value_removes Example.json_loads Example.object_hasattr
              "log_directory" (VStr "logs") (Example.world NoFault)
              eq_refl eq_refl eq_refl (example_consistent NoFault)
              eq_refl eq_refl eq_refl) as [H1 [_ [_ [_ [H2 _]]]]].
  split; [exact H1 | exact H2].
Defined.

Lemma set_value_then_get_witness :
  fst (get Example.object_hasattr "log_directory"
         (snd (set_value Example.json_loads Example.object_hasattr
                 "log_directory" (VStr "out") false (Example.world NoFault))))
  = inr (VStr "out").
Proof.
  exact (proj2 (set_value_then_get Example.json_loads Example.object_hasattr
                  "log_directory" (VStr "logs") (VStr "out")
                  (Example.world NoFault) eq_refl eq_refl eq_refl
                  (example_consistent NoFault) eq_refl eq_refl eq_refl eq_refl)).
Defined.

Lemma set_value_rejected_witness :
  set_value Example.json_loads Example.object_hasattr "environment_sources"
    (VStr "envs.yaml") false (Example.world NoFault)
  = (inl (ConfigChangeValidationError "environment_sources"
            (ConfigValidationError "invalid config")),
     Example.world NoFault).
Proof.
  exact (set_value_rejected Example.json_loads Example.object_hasattr
           "environment_sources" (VList []) (VList []) (VStr "envs.yaml")
           (ConfigValidationError "invalid config") (Example.world NoFault)
           eq_refl eq_refl eq_refl eq_refl eq_refl).
Defined.

Lemma invalid_json_rejected_witness :
  set_value Example.json_loads Example.object_hasattr "log_directory"
    (VStr "{out") true (Example.world NoFault)
  = (inl (ConfigChangeInvalidJSONError "log_directory" "{out" "Expecting value"),
     Example.world NoFault).
Proof.
  exact (proj1 (invalid_json_rejected Example.json_loads Example.object_hasattr
                  "log_directory" "{out" "Expecting value"
                  (Example.world NoFault) eq_refl eq_refl)).
Defined.

Lemma pop_value_out_of_range_witness :
  pop_value Example.json_loads Example.object_hasattr "options" 5
    (Example.world_with [("options", VList [VInt 1; VInt 2; VInt 3])])
  = (inl (ConfigChangePopIndexError "options" 3 5),
     Example.world_with [("options", VList [VInt 1; VInt 2; VInt 3])])
  /\ pop_value Example.json_loads Example.object_hasattr "options" (2 ^ 63)
       (Example.world_with [("options", VList [VInt 1; VInt 2; VInt 3])])
     = (inl OverflowError,
        Example.world_with [("options", VList [VInt 1; VInt 2; VInt 3])]).
Proof.
  split.
  - apply (pop_value_out_of_range Example.json_loads Example.object_hasattr
             "options" [VInt 1; VInt 2; VInt 3] 5
             (Example.world_with [("options", VList [VInt 1; VInt 2; VInt 3])])
             eq_refl eq_refl); simpl; lia.
  - apply (pop_value_out_of_range Example.json_loads Example.object_hasattr
             "options" [VInt 1; VInt 2; VInt 3] (2 ^ 63)
             (Example.world_with [("options", VList [VInt 1; VInt 2; VInt 3])])
             eq_refl eq_refl); simpl; lia.
Defined.

Lemma pop_value_in_range_witness :
  pop_value Example.json_loads Example.object_hasattr "options" 0
    (Example.world_with [("options", VList [VInt 1; VInt 2; VInt 3])])
  = set_value Example.json_loads Example.object_hasattr "options"
      (VList [VInt 2; VInt 3]) false
      (Example.world_with [("options", VList [VInt 1; VInt 2; VInt 3])]).
Proof.
  apply (pop_value_in_range Example.json_loads Example.object_hasattr
           "options" [VInt 1; VInt 2; VInt 3] 0
           (Example.world_with [("options", VList [VInt 1; VInt 2; VInt 3])])
           eq_refl eq_refl).
  simpl. lia.
Defined.

Lemma pop_value_scalar_witness :
  pop_value Example.json_loads Example.object_hasattr "log_directory" 0
    (Example.world NoFault)
  = (inl (ConfigChangeTypeInvalidError "log_directory" "str"),
     Example.world NoFault).
Proof.
  apply (pop_value_scalar Example.json_loads Example.object_hasattr
           "log_directory" (VStr "logs") 0 (Example.world NoFault)
           eq_refl eq_refl); discriminate.
Defined.

Lemma mutate_frame_witness :
  dict_get "environment_sources"
    (_configured_data
       (loader (snd (mutate Example.json_loads Example.object_hasattr
                       (SetValue "log_directory" (VStr "out") false)
                       (Example.world NoFault)))))
  = Some (VList []).
Proof.
  destruct (mutate_frame Example.json_loads Example.object_hasattr
              (SetValue "log_directory" (VStr "out") false)
              (Example.world NoFault) (example_consistent NoFault))
    as [_ [_ [H _]]].
  rewrite (H "environment_sources"); [reflexivity | discriminate].
Defined.

Lemma get_configurable_key_witness :
  get Example.object_hasattr "log_directory" Example.world_unset
  = (inr VNone, Example.world_unset).
Proof.
  exact (get_configurable_key Example.object_hasattr "log_directory"
           Example.world_unset eq_refl eq_refl eq_refl).
Defined.

Lemma task_row_matches_headers_witness :
  List.length [VInt 0; VInt 1; VInt 4021; VStr "."; VStr "pending"; VStr "-";
               VStr "-"; VStr "-"; VStr "-"; VStr "-"]
  = List.length (Api.task_headers true).
Proof.
  exact (proj1 (task_row_matches_headers Example.task true _ eq_refl)).
Defined.

(** * A refused write during [unset_value] *)

(** The store the examples append to is one [__init__] produces. *)
Lemma example_sources_init :
  __init__ Example.yaml_text Example.schema Example.file_schema Example.rti
    "host" None Example.dir
    {| files := [("config.yaml", Example.document_sources)]; fault := NoFault |}
  = inr (Example.loader_sources,
         {| files := [("config.yaml", Example.document_sources)];
            fault := NoFault |}).
Proof. reflexivity. Qed.

(** C1 (the code at the failing input): [unset_value("log_directory")] on
    the default store, the directory refusing the write.  The call raises
    [ConfigChangeFileUpdateError], and the [except] branch puts the value
    back by assignment, after the deletion: [log_directory] was the first
    key of the mapping and of the round-trip subtree and is now the last.
    Neither is the mapping of before the call. *)
Theorem failed_unset_moves_key :
  let w := Example.world (FailWriteTmp "Permission denied") in
  let r := unset_value Example.json_loads Example.object_hasattr
             "log_directory" w in
  fst r = inl (ConfigChangeFileUpdateError "log_directory"
                 (OSError "Permission denied"))
  /\ _configured_data (loader w)
     = [("log_directory", VStr "logs"); ("environment_sources", VList []);
        ("task_schema_sources", VList [])]
  /\ _configured_data (loader (snd r))
     = [("environment_sources", VList []); ("task_schema_sources", VList []);
        ("log_directory", VStr "logs")]
  /\ _configured_data (loader (snd r)) <> _configured_data (loader w)
  /\ _cfg_file_dat_rt (loader (snd r)) <> _cfg_file_dat_rt (loader w).
Proof.
  cbv zeta. repeat split; try reflexivity; intros H; discriminate H.
Qed.

(** C5 (the code at the failing input): after the same failed
    [unset_value], the in-memory mapping and the round-trip subtree agree
    with each other, but not with the file: the file is the one last
    written, with [log_directory] first, and the round-trip document, which
    the next successful write will dump, has it last. *)
Theorem failed_unset_departs_from_file :
  let w := Example.world (FailReplace "Permission denied") in
  let w' := snd (unset_value Example.json_loads Example.object_hasattr
                   "log_directory" w) in
  rt_config "default" (_cfg_file_dat_rt (loader w'))
  = inr (_configured_data (loader w'))
  /\ dict_get "config.yml" (files (disk w')) = Some Example.document
  /\ rt_config "default" Example.document <> inr (_configured_data (loader w'))
  /\ _cfg_file_dat_rt (loader w') <> Example.document.
Proof.
  cbv zeta. repeat split; try reflexivity; intros H; discriminate H.
Qed.

Lemma store_invariant_preserved_witness :
  let w1 := with_fault (FailWriteTmp "Permission denied") (Example.world NoFault) in
  let w2 := snd (mutate Example.json_loads Example.object_hasattr
                   (UnsetValue "log_directory") w1) in
  let w3 := with_fault NoFault w2 in
  let w4 := snd (mutate Example.json_loads Example.object_hasattr
                   (AppendValue "environment_sources" (VStr "a.yaml") false) w3) in
  aligned (loader w4) /\ persisted w4.
Proof.
  cbv zeta.
  apply (store_invariant_preserved Example.json_loads Example.object_hasattr
           (Example.world NoFault)).
  - reflexivity.
  - exists Example.document. split; [reflexivity|].
    apply (same_document_refl "default" Example.config_of_default). reflexivity.
  - apply reach_mutate. apply reach_fault. apply reach_mutate. apply reach_fault.
    apply reach_start.
Defined.

